(** * dnstt-server: the DNS carrier of the tunnel server

    A shallow embedding of [dnstt-server/main.go] (the Noise variant):
    the upstream bundle reader [nextPacket], the DNS state machine
    [responseFor], the receive path of [recvLoop] and the response
    assembly of [sendLoop], followed by the properties the specification
    states about them.

    Bytes are [Init.Byte.byte] (with coqutil's conversions to [Z]); Go's
    [int], [uint16] and [uint32] values are [Z], with the wrap-around of
    a conversion written out where the source converts. *)

From Stdlib Require Import ZArith List Lia Bool.
From Stdlib Require String.
From coqutil Require Import Byte.
From Equations Require Import Equations.
Import ListNotations.

Local Open Scope Z_scope.

Unset Equations With Funext.

(** ** Byte strings *)

Definition bytes := list byte.

(** Go's [len], an [int]. *)
Definition len {A} (l : list A) : Z := Z.of_nat (length l).

(** [make([]byte, n)]: [n] zero bytes. *)
Definition make (n : Z) : bytes := repeat Byte.x00 (Z.to_nat n).

(** ** The standard-library readers used by [nextPacket]

    A [*bytes.Reader] is the list of bytes not read yet; every read
    returns the reader's new state next to its result. *)

Inductive error : Type :=
| EOF               (* io.EOF *)
| ErrUnexpectedEOF. (* io.ErrUnexpectedEOF *)

Definition Reader := bytes.

(** [bytes.NewReader]. *)
Definition NewReader (b : bytes) : Reader := b.

(** [r.ReadByte()]. *)
Definition ReadByte (r : Reader) : (byte + error) * Reader :=
  match r with
  | [] => (inr EOF, [])
  | b :: r' => (inl b, r')
  end.

(** [io.CopyN(ioutil.Discard, r, n)]: [n] bytes are read and dropped; when
    the reader runs dry first, everything left is consumed and the error
    is [io.EOF]. *)
Definition CopyN_Discard (r : Reader) (n : Z) : option error * Reader :=
  if n <=? len r then (None, skipn (Z.to_nat n) r) else (Some EOF, []).

(** [io.ReadFull(r, p)] with [p] a fresh buffer of [n] bytes: the buffer
    after the call, the error, and the reader. No byte at all is
    [io.EOF], too few are [io.ErrUnexpectedEOF]; a buffer of length 0 is
    always filled. *)
Definition ReadFull (r : Reader) (n : Z) : (bytes * option error) * Reader :=
  if n <=? len r then
    ((firstn (Z.to_nat n) r, None), skipn (Z.to_nat n) r)
  else
    ((r ++ make (n - len r),
      Some (match r with [] => EOF | _ :: _ => ErrUnexpectedEOF end)), []).

(** ** [nextPacket] *)

(** The closure [eof] of [nextPacket]. *)
Definition eof (err : error) : error :=
  match err with
  | EOF => ErrUnexpectedEOF
  | e => e
  end.

Lemma ReadByte_shorter r b r1 :
  ReadByte r = (inl b, r1) -> (length r1 < length r)%nat.
Proof. destruct r; simpl; intros H; inversion H; subst; simpl; lia. Qed.

Lemma CopyN_Discard_no_longer r n e r2 :
  CopyN_Discard r n = (e, r2) -> (length r2 <= length r)%nat.
Proof.
  unfold CopyN_Discard. destruct (n <=? len r); intros H; inversion H; subst.
  - rewrite length_skipn. lia.
  - simpl. lia.
Qed.

(** Keeps the equation [a = b] when a [with] clause matches on [a]. *)
Definition inspect {A} (a : A) : {b : A | a = b} := exist _ a eq_refl.

(** The [for] loop of [nextPacket]: a padding prefix is skipped and the
    loop goes round again on a strictly shorter reader. The result is
    Go's pair (packet, error) and the reader's state on return. *)
Equations? nextPacket (r : Reader) : (bytes * option error) * Reader
  by wf (length r) lt :=
nextPacket r with inspect (ReadByte r) := {
  | exist _ (inr err, r1) _ := (([], Some err), r1)
  | exist _ (inl prefix, r1) _ with inspect (224 <=? byte.unsigned prefix) := {
    | exist _ true _
        with inspect (CopyN_Discard r1 (byte.unsigned prefix - 224)) := {
      | exist _ (Some err, r2) _ := (([], Some (eof err)), r2)
      | exist _ (None, r2) _ := nextPacket r2 }
    | exist _ false _ :=
        let '((p, err), r2) := ReadFull r1 (byte.unsigned prefix) in
        ((p, option_map eof err), r2) } }.
Proof.
  match goal with
  | H1 : ReadByte _ = (_, _), H2 : CopyN_Discard _ _ = (_, _) |- _ =>
      apply ReadByte_shorter in H1; apply CopyN_Discard_no_longer in H2; lia
  end.
Qed.

(** The two unfoldings of the loop, in the shape of the source. *)
Lemma nextPacket_nil : nextPacket [] = (([], Some EOF), []).
Proof. reflexivity. Qed.

Lemma nextPacket_cons (prefix : byte) (r1 : Reader) :
  nextPacket (prefix :: r1) =
  if 224 <=? byte.unsigned prefix then
    match CopyN_Discard r1 (byte.unsigned prefix - 224) with
    | (Some err, r2) => (([], Some (eof err)), r2)
    | (None, r2) => nextPacket r2
    end
  else
    let '((p, err), r2) := ReadFull r1 (byte.unsigned prefix) in
    ((p, option_map eof err), r2).
Proof.
  simp nextPacket. simpl.
  destruct (224 <=? byte.unsigned prefix); simpl; [| reflexivity].
  destruct (CopyN_Discard r1 (byte.unsigned prefix - 224)) as [[err |] r2];
    reflexivity.
Qed.

Global Opaque nextPacket.

(** A packet is returned only after at least its prefix byte was read. *)
Lemma nextPacket_progress (r : Reader) p r' :
  nextPacket r = ((p, None), r') -> (length r' < length r)%nat.
Proof.
  remember (length r) as n eqn:Hn.
  revert r Hn p r'. induction n as [n IH] using lt_wf_ind.
  intros [| prefix r1] Hn p r'.
  - rewrite nextPacket_nil. discriminate.
  - rewrite nextPacket_cons. simpl in Hn.
    destruct (224 <=? byte.unsigned prefix).
    + destruct (CopyN_Discard r1 (byte.unsigned prefix - 224))
        as [[err |] r2] eqn:EC; [discriminate |].
      apply CopyN_Discard_no_longer in EC. intros H.
      apply (IH (length r2)) in H; [lia | lia | reflexivity].
    + unfold ReadFull. destruct (byte.unsigned prefix <=? len r1); simpl.
      * intros H. inversion H; subst. rewrite length_skipn. lia.
      * destruct r1; discriminate.
Qed.

(** ** The receive path: packets fed to the virtual packet connection

    The inner loop of [recvLoop]: [nextPacket] is called until it returns
    an error, and every packet it returned is handed to
    [ttConn.QueueIncoming] under the query's ClientID. [recvPackets r] is
    the list of those packets, in the order of the calls, and the error
    on which the loop is left. *)
Equations? recvPackets (r : Reader) : list bytes * error by wf (length r) lt :=
recvPackets r with inspect (nextPacket r) := {
  | exist _ ((p, None), r') _ :=
      (p :: fst (recvPackets r'), snd (recvPackets r'))
  | exist _ ((_, Some err), _) _ := ([], err) }.
Proof. all: eapply nextPacket_progress; eassumption. Qed.

Lemma recvPackets_step (r : Reader) :
  recvPackets r =
  match nextPacket r with
  | ((p, None), r') => (p :: fst (recvPackets r'), snd (recvPackets r'))
  | ((_, Some err), _) => ([], err)
  end.
Proof.
  simp recvPackets. simpl.
  destruct (nextPacket r) as [[p [err |]] r']; reflexivity.
Qed.

Global Opaque recvPackets.

(** ** Constants of [main.go] *)

Definition responseTTL : Z := 60.

(** We don't send UDP payloads larger than this. *)
Definition maxUDPPayload : Z := 1280 - 40 - 8.

(** The global limit on the TXT payload of one response. *)
Definition maxEncodedPayload : Z := 930.

(** ** DNS messages

    The structures of package [dns], as [main.go] uses them. A field
    that would clash with a type's name or a Rocq keyword carries a
    prefix: [QName], [QType], [QClass] for [dns.Question], [RRName] ...
    [RRData] for [dns.RR], and [Questions] for [Message.Question]. *)

(** A [dns.Name] is a sequence of labels. *)
Definition Name := list bytes.

Record Question := mkQuestion {
  QName : Name;
  QType : Z;   (* uint16 *)
  QClass : Z   (* uint16 *)
}.

Record RR := mkRR {
  RRName : Name;
  RRType : Z;  (* uint16 *)
  RRClass : Z; (* uint16 *)
  RRTTL : Z;   (* uint32 *)
  RRData : bytes
}.

Record Message := mkMessage {
  ID : Z;      (* uint16 *)
  Flags : Z;   (* uint16 *)
  Questions : list Question;
  Answer : list RR;
  Additional : list RR
}.

Definition set_Flags (m : Message) (f : Z) : Message :=
  mkMessage (ID m) f (Questions m) (Answer m) (Additional m).

Definition set_Answer (m : Message) (a : list RR) : Message :=
  mkMessage (ID m) (Flags m) (Questions m) a (Additional m).

Definition set_Additional (m : Message) (a : list RR) : Message :=
  mkMessage (ID m) (Flags m) (Questions m) (Answer m) a.

Definition set_RRTTL (rr : RR) (ttl : Z) : RR :=
  mkRR (RRName rr) (RRType rr) (RRClass rr) ttl (RRData rr).

(** Modelled from the spec: the RCODE, extended RCODE and RR type
    constants of package [dns], which is not among the sources. The
    values are those of the DNS standards the specification names
    (FORMERR is RCODE 1 and NXDOMAIN is RCODE 3 in its scenarios A and
    B; NOTIMPL is 4, BADVERS is 16, TXT is type 16 and OPT is type 41). *)
Definition RcodeNoError : Z := 0.
Definition RcodeFormatError : Z := 1.
Definition RcodeNameError : Z := 3.
Definition RcodeNotImplemented : Z := 4.
Definition ExtendedRcodeBadVers : Z := 16.
Definition RRTypeTXT : Z := 16.
Definition RRTypeOPT : Z := 41.

(** Modelled from the spec: [Message.Rcode] of package [dns], the RCODE
    field of the flags (their low four bits). *)
Definition Rcode (m : Message) : Z := Z.land (Flags m) 0x000f.

(** The AA bit of a message's flags, as [responseFor] tests it. *)
Definition AA (m : Message) : bool := negb (Z.land (Flags m) 0x0400 =? 0).

(** ** ClientID *)

(** A [turbotunnel.ClientID] is an array of 8 bytes. *)
Definition ClientID := bytes.
Definition clientIDLen : Z := 8.

(** The zero value of [var clientID turbotunnel.ClientID]. *)
Definition zeroClientID : ClientID := make clientIDLen.

(** [n = copy(clientID[:], payload)]: the array after the copy, and [n]. *)
Definition copyClientID (clientID : ClientID) (payload : bytes) : ClientID * Z :=
  let n := Z.min (len clientID) (len payload) in
  (firstn (Z.to_nat n) payload ++ skipn (Z.to_nat n) clientID, n).

(** ** [responseFor] *)

Definition isOPT (rr : RR) : bool := RRType rr =? RRTypeOPT.

(** The OPT RR [responseFor] appends to its response. *)
Definition responseOPT : RR := mkRR [] RRTypeOPT 4096 0 [].

(** [(rr.TTL >> 16) & 0xff]. *)
Definition ednsVersion (rr : RR) : Z := Z.land (Z.shiftr (RRTTL rr) 16) 0xff.

(** [additional.TTL = ttl] where [additional := &resp.Additional[0]]. *)
Definition set_Additional0_TTL (resp : Message) (ttl : Z) : Message :=
  match Additional resp with
  | [] => resp
  | rr :: rest => set_Additional resp (set_RRTTL rr ttl :: rest)
  end.

(** The [range query.Additional] loop of [responseFor]. [inl resp] is a
    [return resp, clientID, nil] from inside the loop; [inr (resp,
    payloadSize)] is the state in which the loop is left at its end. *)
Fixpoint ednsLoop (additional : list RR) (resp : Message) (payloadSize : Z)
  : Message + (Message * Z) :=
  match additional with
  | [] => inr (resp, payloadSize)
  | rr :: rest =>
      if negb (isOPT rr) then ednsLoop rest resp payloadSize
      else if negb (len (Additional resp) =? 0) then
        inl (set_Flags resp (Z.lor (Flags resp) RcodeFormatError))
      else
        let resp := set_Additional resp (Additional resp ++ [responseOPT]) in
        let version := ednsVersion rr in
        if negb (version =? 0) then
          let resp :=
            set_Flags resp (Z.lor (Flags resp) (Z.land ExtendedRcodeBadVers 0xf)) in
          inl (set_Additional0_TTL resp
                 (Z.shiftl (Z.shiftr ExtendedRcodeBadVers 4) 24))
        else ednsLoop rest resp (RRClass rr)
  end.

(** The functions that [main.go] calls and that are not among the
    sources: [Name.TrimSuffix], [Message.WireFormat] and [EncodeRDataTXT]
    of package [dns], [bytes.ToUpper] and [base32Encoding.Decode] of Go's
    library. The server is defined over any implementation of them.
    [TrimSuffix] returns Go's pair (prefix, ok); [base32Decode encoded] is
    [Some] of the decoded bytes ([payload[:n]]), or [None] when [Decode]
    returns an error; [WireFormat] is [None] when it returns an error. *)
Class External := {
  TrimSuffix : Name -> Name -> Name * bool;
  ToUpper : bytes -> bytes;
  base32Decode : bytes -> option bytes;
  WireFormat : Message -> option bytes;
  EncodeRDataTXT : bytes -> bytes
}.

Section ResponseFor.

Context {ext : External}.

Definition responseFor (query : Message) (domain : Name)
  : option Message * ClientID * bytes :=
  let clientID := zeroClientID in
  let resp := mkMessage (ID query) 0x8000 (Questions query) [] [] in
  if negb (Z.land (Flags query) 0x8000 =? 0) then
    (* QR != 0, this is not a query. *)
    (None, clientID, [])
  else
    match ednsLoop (Additional query) resp 0 with
    | inl resp => (Some resp, clientID, [])
    | inr (resp, payloadSize) =>
        let payloadSize := if payloadSize <? 512 then 512 else payloadSize in
        (* There must be exactly one question. *)
        if negb (len (Questions query) =? 1) then
          (Some (set_Flags resp (Z.lor (Flags resp) RcodeFormatError)),
           clientID, [])
        else
          match Questions query with
          | [] => (Some resp, clientID, []) (* excluded by the test above *)
          | question :: _ =>
              let '(prefix, ok) := TrimSuffix (QName question) domain in
              let resp :=
                if ok then set_Flags resp (Z.lor (Flags resp) 0x0400)
                else resp in
              if Z.land (Flags resp) 0x0400 =? 0 then
                (* Not a name we are authoritative for. *)
                (Some (set_Flags resp (Z.lor (Flags resp) RcodeNameError)),
                 clientID, [])
              else if negb (Z.land (Flags query) 0x7800 =? 0) then
                (* We don't support OPCODE != QUERY. *)
                (Some (set_Flags resp (Z.lor (Flags resp) RcodeNotImplemented)),
                 clientID, [])
              else if negb (QType question =? RRTypeTXT) then
                (* We only support QTYPE == TXT. *)
                (Some (set_Flags resp (Z.lor (Flags resp) RcodeNameError)),
                 clientID, [])
              else
                let encoded := ToUpper (concat prefix) in
                match base32Decode encoded with
                | None =>
                    (* Base32 error, make like the name doesn't exist. *)
                    (Some (set_Flags resp (Z.lor (Flags resp) RcodeNameError)),
                     clientID, [])
                | Some payload =>
                    let '(clientID, n) := copyClientID clientID payload in
                    if n <? len clientID then
                      (* Payload is not long enough to contain a ClientID. *)
                      (Some (set_Flags resp (Z.lor (Flags resp) RcodeNameError)),
                       clientID, [])
                    else if payloadSize <? maxUDPPayload then
                      (Some (set_Flags resp (Z.lor (Flags resp) RcodeFormatError)),
                       clientID, [])
                    else
                      (Some resp, clientID,
                       skipn (Z.to_nat (len clientID)) payload)
                end
          end
    end.

End ResponseFor.

(** ** Integers on the wire *)

(** The conversion [uint16(n)] of an [int]. *)
Definition uint16 (n : Z) : Z := n mod 65536.

(** [binary.Write(&buf, binary.BigEndian, v)] for a [uint16] [v]: the
    two bytes appended to the buffer. *)
Definition BigEndian_uint16 (v : Z) : bytes :=
  [byte.of_Z (Z.shiftr v 8); byte.of_Z v].

(** [a | b] on bytes. *)
Definition byte_or (a b : byte) : byte :=
  byte.of_Z (Z.lor (byte.unsigned a) (byte.unsigned b)).

(** The TC flag of a datagram: bit [0x02] of the byte at offset 2. *)
Definition TC (datagram : bytes) : bool :=
  match nth_error datagram 2 with
  | Some b2 => Z.testbit (byte.unsigned b2) 1
  | None => false
  end.

(** ** [recvLoop] and [sendLoop] *)

Section Loops.

Context {ext : External}.

(** [net.Addr]. *)
Variable Addr : Type.

(** [record]: a response set up for a query, its return address and
    the ClientID of the query. *)
Record record := mkrecord {
  Resp : Message;
  RAddr : Addr;
  RClientID : ClientID
}.

(** The body of [recvLoop] for one datagram that parsed as [query].
    [room] tells whether the channel [ch] has room (its [select] drops
    the record otherwise). The result is the record sent to [sendLoop],
    if any, and the calls [ttConn.QueueIncoming(p, clientID)] made, in
    order. *)
Definition recvQuery (domain : Name) (query : Message) (addr : Addr)
    (room : bool) : option record * list (bytes * ClientID) :=
  let '(resp, clientID, payload) :=
    responseFor query domain in
  (match resp with
   | Some resp => if room then Some (mkrecord resp addr clientID) else None
   | None => None
   end,
   map (fun p => (p, clientID)) (fst (recvPackets (NewReader payload)))).

(** What the labelled [loop:] of [sendLoop] leaves behind: the bundle
    written to [payload], the new [nextP] and [nextRec], and the
    packets still in the client's outgoing queue; or the [panic]. *)
Inductive bundled :=
| Bundle (payload : bytes) (nextP : bytes) (nextRec : option record)
         (queue : list bytes)
| Panic (n : Z).

(** The labelled [loop:]. [queue] holds the packets that the receives
    from [ttConn.OutgoingQueue(rec.ClientID)] find ready, in order.
    When none is ready the [default] case blocks until another record
    arrives ([wake = Some rec'], kept in [nextRec]) or the timer fires
    ([wake = None]); both leave the loop. *)
Fixpoint bundleLoop (limit : Z) (payload : bytes) (queue : list bytes)
    (wake : option record) : bundled :=
  match queue with
  | [] => Bundle payload [] wake []
  | p :: queue' =>
      if negb (uint16 (len p) =? len p) then Panic (len p)
      else if 2 + len p >? limit then
        (* Save this packet to send in the next response. *)
        Bundle payload p None queue'
      else
        bundleLoop (limit - (2 + len p))
          (payload ++ BigEndian_uint16 (uint16 (len p)) ++ p) queue' wake
  end.

(** The leftover of the previous bundle, written first and without a
    length check: the limit and the buffer the loop starts from. *)
Definition leftover (nextP : bytes) : Z * bytes :=
  let limit := maxEncodedPayload in
  if len nextP >? 0 then
    (limit - (2 + len nextP), BigEndian_uint16 (uint16 (len nextP)) ++ nextP)
  else (limit, []).

(** The bundle of one response: the leftover, then the loop. *)
Definition assemble (nextP : bytes) (queue : list bytes)
    (wake : option record) : bundled :=
  let '(limit, payload) := leftover nextP in
  bundleLoop limit payload queue wake.

(** "Truncate if necessary": the buffer handed to [dnsConn.WriteTo].
    [buf[2]] exists whenever the branch is taken, the buffer being
    [maxUDPPayload] bytes long there. *)
Definition truncate (buf : bytes) : bytes :=
  if len buf >? maxUDPPayload then
    match firstn (Z.to_nat maxUDPPayload) buf with
    | b0 :: b1 :: b2 :: rest => b0 :: b1 :: byte_or b2 (byte.of_Z 0x02) :: rest
    | short => short
    end
  else buf.

(** One turn of [sendLoop]'s outer loop. *)
Inductive sent :=
| Sent (resp : Message) (datagram : option bytes) (nextP : bytes)
       (nextRec : option record) (queue : list bytes)
| Panicked (n : Z).

(** From [buf, err := rec.Resp.WireFormat()] to [dnsConn.WriteTo]: no
    datagram is written when [WireFormat] fails. *)
Definition emit (resp : Message) : option bytes :=
  match WireFormat resp with
  | None => None
  | Some buf => Some (truncate buf)
  end.

(** The turn of the outer loop that handles [rec], entered with the
    leftover [nextP]. The result carries the response as serialized,
    the datagram written, and the state the next turn starts from. *)
Definition sendRecord (nextP : bytes) (rec : record) (queue : list bytes)
    (wake : option record) : sent :=
  let resp := Resp rec in
  if (Rcode resp =? RcodeNoError) && (len (Questions resp) =? 1) then
    match Questions resp with
    | [] => Sent resp (emit resp) nextP None queue (* excluded by the test *)
    | question :: _ =>
        match assemble nextP queue wake with
        | Panic n => Panicked n
        | Bundle payload nextP nextRec queue =>
            let resp :=
              set_Answer resp
                [mkRR (QName question) (QType question) (QClass question)
                      responseTTL (EncodeRDataTXT payload)] in
            Sent resp (emit resp) nextP nextRec queue
        end
    end
  else Sent resp (emit resp) nextP None queue.

(** What the world does during one turn of the outer loop: the packets
    that the receives from the outgoing queue find ready, whether
    another record is waiting on [ch] when the queue has run dry (the
    timer fires otherwise), and the result of [dnsConn.WriteTo]. *)
Inductive writeResult := WriteOk | WriteTemporary | WriteFatal.

Record turn := mkturn {
  outgoing : list bytes;
  arrival : bool;
  written : writeResult
}.

(** How a run of [sendLoop] stands after the turns given: still in the
    loop, returned [nil] on the closed channel, returned the error of
    [WriteTo], or panicked. *)
Inductive exit := Looping | Closed | Failed | Panics (n : Z).

(** [sendLoop]: the outer loop, with the carry-over [nextRec] and
    [nextP] as arguments. [ch] holds the records that [recvLoop] sends
    before it closes the channel. The result lists the datagrams handed
    to [dnsConn.WriteTo], each with its address, in order. *)
Fixpoint sendLoop (turns : list turn) (nextRec : option record)
    (nextP : bytes) (ch : list record) : list (bytes * Addr) * exit :=
  match turns with
  | [] => ([], Looping)
  | t :: turns' =>
      let received :=
        match nextRec with
        | Some rec => Some (rec, ch)
        | None =>
            match ch with
            | rec :: ch' => Some (rec, ch')
            | [] => None (* !ok *)
            end
        end in
      match received with
      | None => ([], Closed)
      | Some (rec, ch) =>
          let wake := if arrival t then hd_error ch else None in
          match sendRecord nextP rec (outgoing t) wake with
          | Panicked n => ([], Panics n)
          | Sent _ datagram nextP nextRec _ =>
              let ch := match nextRec with Some _ => tl ch | None => ch end in
              match datagram with
              | None =>
                  (* resp WireFormat: the error is logged *)
                  sendLoop turns' nextRec nextP ch
              | Some buf =>
                  match written t with
                  | WriteFatal => ([(buf, RAddr rec)], Failed)
                  | _ =>
                      let '(rest, e) := sendLoop turns' nextRec nextP ch in
                      ((buf, RAddr rec) :: rest, e)
                  end
              end
          end
      end
  end.

End Loops.

(** The argument of [conn.SetMtu] in [acceptSessions]. *)
Definition sessionMtu : Z := maxEncodedPayload - 2.

Arguments Bundle {Addr}.
Arguments Panic {Addr}.
Arguments Sent {Addr}.
Arguments Panicked {Addr}.
Arguments mkrecord {Addr}.
Arguments Resp {Addr}.
Arguments RAddr {Addr}.
Arguments RClientID {Addr}.
Arguments bundleLoop {Addr}.
Arguments assemble {Addr}.
Arguments sendRecord {ext Addr}.
Arguments sendLoop {ext Addr}.
Arguments recvQuery {ext Addr}.

(** ** Instances of the external functions

    [responseFor], [recvQuery] and [sendRecord] are defined over the
    functions of package [dns] and of Go's library that [main.go] calls.
    The theorems below hold for every choice of them; the instances of
    this module are the ones they are run with on concrete queries. *)

Module Model.

Fixpoint bytes_eqb (x y : bytes) : bool :=
  match x, y with
  | [], [] => true
  | c :: x', d :: y' => Byte.eqb c d && bytes_eqb x' y'
  | _, _ => false
  end.

Fixpoint name_eqb (x y : Name) : bool :=
  match x, y with
  | [], [] => true
  | l :: x', m :: y' => bytes_eqb l m && name_eqb x' y'
  | _, _ => false
  end.

(** Modelled from the spec: [Name.TrimSuffix] of package [dns], which
    "trims a queried name by a configured suffix, yielding the
    remaining labels"; with the suffix absent it yields no labels and
    [false]. *)
Definition TrimSuffix (name suffix : Name) : Name * bool :=
  let split := (length name - length suffix)%nat in
  if (length suffix <=? length name)%nat && name_eqb (skipn split name) suffix
  then (firstn split name, true)
  else ([], false).

(** [bytes.ToUpper] on ASCII text: the letters [a] to [z] become [A]
    to [Z]. *)
Definition ToUpper (s : bytes) : bytes :=
  map (fun c =>
         let v := byte.unsigned c in
         if (97 <=? v) && (v <=? 122) then byte.of_Z (v - 32) else c) s.

(** The value of a character of the RFC 4648 base32 alphabet. *)
Definition base32Digit (c : byte) : option Z :=
  let v := byte.unsigned c in
  if (65 <=? v) && (v <=? 90) then Some (v - 65)
  else if (50 <=? v) && (v <=? 55) then Some (v - 24)
  else None.

Fixpoint base32Bits (s : bytes) : option (list bool) :=
  match s with
  | [] => Some []
  | c :: s' =>
      match base32Digit c, base32Bits s' with
      | Some d, Some bits =>
          Some (Z.testbit d 4 :: Z.testbit d 3 :: Z.testbit d 2
                  :: Z.testbit d 1 :: Z.testbit d 0 :: bits)
      | _, _ => None
      end
  end.

Definition bit (x : bool) (weight : Z) : Z := if x then weight else 0.

Fixpoint packBits (bits : list bool) : bytes :=
  match bits with
  | b7 :: b6 :: b5 :: b4 :: b3 :: b2 :: b1 :: b0 :: rest =>
      byte.of_Z (bit b7 128 + bit b6 64 + bit b5 32 + bit b4 16
                 + bit b3 8 + bit b2 4 + bit b1 2 + bit b0 1)
        :: packBits rest
  | _ => []
  end.

(** Modelled from the spec: the decoder of "RFC 4648 base32 without
    padding" ([base32Encoding.Decode]); a character outside the
    alphabet or a length that no encoding has is an error. *)
Definition base32Decode (encoded : bytes) : option bytes :=
  let r := len encoded mod 8 in
  if (r =? 1) || (r =? 3) || (r =? 6) then None
  else option_map packBits (base32Bits encoded).

Definition BigEndian_uint32 (v : Z) : bytes :=
  [byte.of_Z (Z.shiftr v 24); byte.of_Z (Z.shiftr v 16);
   byte.of_Z (Z.shiftr v 8); byte.of_Z v].

Definition encodeName (name : Name) : bytes :=
  concat (map (fun label => byte.of_Z (len label) :: label) name)
    ++ [Byte.x00].

Definition encodeQuestion (q : Question) : bytes :=
  encodeName (QName q) ++ BigEndian_uint16 (QType q)
    ++ BigEndian_uint16 (QClass q).

Definition encodeRR (rr : RR) : bytes :=
  encodeName (RRName rr) ++ BigEndian_uint16 (RRType rr)
    ++ BigEndian_uint16 (RRClass rr) ++ BigEndian_uint32 (RRTTL rr)
    ++ BigEndian_uint16 (len (RRData rr)) ++ RRData rr.

(** Modelled from the spec: [Message.WireFormat] of package [dns],
    which "serializes a structured message to a wire buffer": the
    12-byte header (ID, flags and the four section counts, big-endian)
    followed by the sections, names written without compression. *)
Definition WireFormat (m : Message) : option bytes :=
  Some (BigEndian_uint16 (ID m) ++ BigEndian_uint16 (Flags m)
          ++ BigEndian_uint16 (len (Questions m))
          ++ BigEndian_uint16 (len (Answer m))
          ++ BigEndian_uint16 0
          ++ BigEndian_uint16 (len (Additional m))
          ++ concat (map encodeQuestion (Questions m))
          ++ concat (map encodeRR (Answer m))
          ++ concat (map encodeRR (Additional m))).

Fixpoint characterStrings (fuel : nat) (p : bytes) : bytes :=
  match fuel with
  | S fuel' =>
      if len p >? 255 then
        byte.of_Z 255 :: firstn 255 p ++ characterStrings fuel' (skipn 255 p)
      else byte.of_Z (len p) :: p
  | O => byte.of_Z (len p) :: p
  end.

(** Modelled from the spec: [dns.EncodeRDataTXT], which encodes "the
    bundle as a TXT RR data field (split into 255-byte
    character-strings as TXT requires)". *)
Definition EncodeRDataTXT (p : bytes) : bytes :=
  characterStrings (length p) p.

Definition external : External :=
  Build_External TrimSuffix ToUpper base32Decode WireFormat EncodeRDataTXT.

End Model.

(** ** Example queries *)

Module Example.

Import String.StringSyntax.
Local Open Scope string_scope.

(** The bytes of a label. *)
Definition label (s : String.string) : bytes := String.list_byte_of_string s.

(** The configured domain, [t.example.com]. *)
Definition domain : Name := [label "t"; label "example"; label "com"].

(** An OPT RR advertising the payload size [class], with EDNS version
    [version]. *)
Definition opt (class version : Z) : RR :=
  mkRR [] RRTypeOPT class (Z.shiftl version 16) [].

(** A name under the domain: the base32 text of the ClientID
    [01 02 03 04 05 06 07 08] followed by the bundle
    [02 68 69 e1 00 01 21] (the packet [68 69], one byte of padding and
    the packet [21]). *)
Definition tunnelPrefix : Name := [label "aebagbafaydqqatinhqqaajb"].
Definition tunnelName : Name := tunnelPrefix ++ domain.

(** A name under another domain, [abc.other.com]. *)
Definition foreignName : Name := [label "abc"; label "other"; label "com"].

(** The ClientID and the bundle that [tunnelName] carries. *)
Definition clientID : ClientID :=
  map byte.of_Z [0x01; 0x02; 0x03; 0x04; 0x05; 0x06; 0x07; 0x08].
Definition bundle : bytes :=
  map byte.of_Z [0x02; 0x68; 0x69; 0xe1; 0x00; 0x01; 0x21].

(** A standard TXT query (RD set) for [name]. *)
Definition txtQuery (name : Name) (additional : list RR) : Message :=
  mkMessage 0x1234 0x0100 [mkQuestion name RRTypeTXT 1] [] additional.

(** The response to [txtQuery name _] with the given flags and
    Additional section. *)
Definition response (flags : Z) (name : Name) (additional : list RR)
  : Message :=
  mkMessage 0x1234 flags [mkQuestion name RRTypeTXT 1] [] additional.

(** The server's OPT RR with the high bits of BADVERS in its TTL. *)
Definition badversOPT : RR := mkRR [] RRTypeOPT 4096 0x01000000 [].

(** The record that [recvLoop] hands to [sendLoop] for the query
    [txtQuery tunnelName [opt 4096 0]]. *)
Definition pending : record unit :=
  mkrecord (response 0x8400 tunnelName [responseOPT]) tt clientID.

(** The response of [pending] with a bundle in its Answer section. *)
Definition answered (payload : bytes) : Message :=
  set_Answer (response 0x8400 tunnelName [responseOPT])
    [mkRR tunnelName RRTypeTXT 1 responseTTL (Model.EncodeRDataTXT payload)].

(** A downstream packet of [n] bytes. *)
Definition packet (n : nat) : bytes := repeat Byte.x01 n.

(** What [Model.WireFormat] makes of a message. *)
Definition wire (m : Message) : bytes :=
  match Model.WireFormat m with
  | Some buf => buf
  | None => []
  end.

End Example.

(** The byte string that carries the packets [ps] in the framing that
    [nextPacket] reads: each packet after its length, written as one
    byte. *)
Definition upstreamBundle (ps : list bytes) : bytes :=
  concat (map (fun p => byte.of_Z (len p) :: p) ps).

(** One packet of a downstream bundle, as [sendLoop] writes it: the
    length as a big-endian [uint16], then the bytes. *)
Definition frame (p : bytes) : bytes :=
  BigEndian_uint16 (uint16 (len p)) ++ p.

(** The room a list of packets takes in a downstream bundle. *)
Definition encodedSize (ps : list bytes) : Z :=
  fold_right (fun p size => 2 + len p + size) 0 ps.

(** ** Notions the properties are stated with *)

(** The class of the query's first OPT RR, 0 without one. *)
Definition requestedPayloadSize (additional : list RR) : Z :=
  match filter isOPT additional with
  | [] => 0
  | o :: _ => RRClass o
  end.

(** The payload size a requestor advertises, as the specification words
    it: the class of the query's OPT RR, values under 512 and the absence
    of an OPT RR counting as 512. *)
Definition advertisedPayloadSize (additional : list RR) : Z :=
  let size := requestedPayloadSize additional in
  if size <? 512 then 512 else size.

(** The response with the server's OPT RR appended. *)
Definition withOPT (resp : Message) : Message :=
  set_Additional resp (Additional resp ++ [responseOPT]).

(** The queries that the EDNS loop lets through: no OPT RR, or exactly
    one, of EDNS version 0. *)
Definition ednsAccepted (query : Message) : Prop :=
  filter isOPT (Additional query) = [] \/
  exists o, filter isOPT (Additional query) = [o] /\ ednsVersion o = 0.

(** The name-based checks of [responseFor] on a question: the name is
    under the domain, the type is TXT, the labels before the domain
    decode as base32, to at least a ClientID. *)
Definition nameAccepted {ext : External} (question : Question)
    (domain : Name) : Prop :=
  exists prefix payload,
    TrimSuffix (QName question) domain = (prefix, true) /\
    QType question = RRTypeTXT /\
    base32Decode (ToUpper (concat prefix)) = Some payload /\
    clientIDLen <= len payload.

(** The packets [taken] into a bundle each fitted when their turn came:
    [limit] is the room the first of them found. *)
Definition fitted (limit : Z) (taken : list bytes) : Prop :=
  forall before p after,
    taken = before ++ p :: after ->
    2 + len p <= limit - encodedSize before.

(** ** Upstream bundles with padding *)

(** A piece of an upstream bundle as [nextPacket] reads it: a packet
    after its 1-byte length, or a block of padding after its prefix
    [224 + length]. *)
Inductive chunk :=
| Packet (p : bytes)
| Pad (fill : bytes).

Definition chunkBytes (c : chunk) : bytes :=
  match c with
  | Packet p => byte.of_Z (len p) :: p
  | Pad fill => byte.of_Z (224 + len fill) :: fill
  end.

(** The lengths that the prefix byte can express. *)
Definition chunkFits (c : chunk) : Prop :=
  match c with
  | Packet p => len p <= 223
  | Pad fill => len fill <= 31
  end.

Definition chunksBytes (cs : list chunk) : bytes :=
  concat (map chunkBytes cs).

Definition packetsOf (cs : list chunk) : list bytes :=
  flat_map (fun c => match c with Packet p => [p] | Pad _ => [] end) cs.

(** ** The response skeleton *)

(** The response that [responseFor] has built when the EDNS loop has let
    the query through: the ID and the Question section of the query, the
    flag QR, and the server's OPT RR if the query has one. *)
Definition skeleton (query : Message) : Message :=
  mkMessage (ID query) 0x8000 (Questions query) []
    (if existsb isOPT (Additional query) then [responseOPT] else []).

(** The extended RCODE of a response: the high bits from the TTL of its
    OPT RR [opt], the low four from the flags. *)
Definition extendedRcode (resp : Message) (opt : RR) : Z :=
  Z.lor (Z.shiftl (Z.shiftr (RRTTL opt) 24) 4) (Rcode resp).

(** ** Records waiting for [sendLoop] *)

(** The records that [sendLoop] has still to answer, in order: the one
    it holds in [nextRec], then those in the channel. *)
Definition pending {Addr} (nextRec : option (record Addr))
    (ch : list (record Addr)) : list (record Addr) :=
  match nextRec with
  | Some rec => rec :: ch
  | None => ch
  end.

(** ** [generateKeypair]

    The function works on the file system and on the terminal. Its calls
    that can fail are answered from a script, the list of the results to
    come ([None] for success, as when the script has run out); every call
    goes into a trace with its result, and so does every line printed. *)

(** An error value of Go, other than those of package [io]. *)
Definition fault := nat.

Inductive keyKind := Privkey | Pubkey.

Inductive syscall :=
| GenerateKeypair                          (* noise.GenerateKeypair() *)
| Create (filename : String.string)        (* os.Create(filename) *)
| WriteKey (filename : String.string) (key : bytes)
                                           (* noise.WriteKey(f, key) *)
| Close (filename : String.string)         (* f.Close() *)
| Remove (filename : String.string).       (* os.Remove(filename) *)

Inductive output :=
| StderrDeleting (filename : String.string)
| StderrCannotRemove (filename : String.string) (closeErr : fault)
| StdoutWritten (kind : keyKind) (filename : String.string)
| StdoutKey (kind : keyKind) (key : bytes).

Inductive event :=
| Call (c : syscall) (result : option fault)
| Print (o : output).

Record world := mkworld {
  script : list (option fault);
  trace : list event
}.

(** Computations that run in the world. *)
Definition run (A : Type) := world -> A * world.

Definition ret {A} (a : A) : run A := fun w => (a, w).

Definition bind {A B} (c : run A) (k : A -> run B) : run B :=
  fun w => let '(a, w') := c w in k a w'.

Notation "x <- c ;; k" := (bind c (fun x => k))
  (at level 61, c at next level, right associativity).
Notation "c ;;; k" := (bind c (fun _ => k))
  (at level 61, right associativity).

Definition call (c : syscall) : run (option fault) :=
  fun w =>
    match script w with
    | [] => (None, mkworld [] (trace w ++ [Call c None]))
    | result :: rest => (result, mkworld rest (trace w ++ [Call c result]))
    end.

Definition print (o : output) : run unit :=
  fun w => (tt, mkworld (script w) (trace w ++ [Print o])).

Definition isEmpty (s : String.string) : bool :=
  match s with
  | String.EmptyString => true
  | String.String _ _ => false
  end.

(** The deferred function of [generateKeypair]: the files of [toDelete]
    are removed; an error of [os.Remove] becomes the result only when
    there is none yet. *)
Fixpoint deleteFiles (toDelete : list String.string) (err : option fault)
  : run (option fault) :=
  match toDelete with
  | [] => ret err
  | filename :: rest =>
      print (StderrDeleting filename) ;;;
      closeErr <- call (Remove filename) ;;
      match closeErr with
      | Some e =>
          print (StderrCannotRemove filename e) ;;;
          deleteFiles rest (match err with None => Some e | Some _ => err end)
      | None => deleteFiles rest err
      end
  end.

(** "Save the key to a file", the block that [generateKeypair] has once
    for each key. The result is the error on which the function returns,
    if any, and [toDelete] as the block leaves it. *)
Definition saveKey (filename : String.string) (key : bytes)
    (toDelete : list String.string)
  : run (option fault * list String.string) :=
  err <- call (Create filename) ;;
  match err with
  | Some _ => ret (err, toDelete)
  | None =>
      let toDelete := toDelete ++ [filename] in
      err <- call (WriteKey filename key) ;;
      err2 <- call (Close filename) ;;
      let err := match err with None => err2 | Some _ => err end in
      ret (err, toDelete)
  end.

Section GenerateKeypair.

(** The keys that [noise.GenerateKeypair] returns. *)
Variable privkey pubkey : bytes.

(** The body of [generateKeypair], up to its [return]: the error
    returned and [toDelete] at that point. *)
Definition generateKeypairBody (privkeyFilename pubkeyFilename : String.string)
  : run (option fault * list String.string) :=
  let toDelete := [] in
  err <- call GenerateKeypair ;;
  match err with
  | Some _ => ret (err, toDelete)
  | None =>
      saved <- (if negb (isEmpty privkeyFilename)
                then saveKey privkeyFilename privkey toDelete
                else ret (None, toDelete)) ;;
      let '(err, toDelete) := saved in
      match err with
      | Some _ => ret (err, toDelete)
      | None =>
          saved <- (if negb (isEmpty pubkeyFilename)
                    then saveKey pubkeyFilename pubkey toDelete
                    else ret (None, toDelete)) ;;
          let '(err, toDelete) := saved in
          match err with
          | Some _ => ret (err, toDelete)
          | None =>
              (* All good, allow the written files to remain. *)
              let toDelete := [] in
              (if negb (isEmpty privkeyFilename)
               then print (StdoutWritten Privkey privkeyFilename)
               else print (StdoutKey Privkey privkey)) ;;;
              (if negb (isEmpty pubkeyFilename)
               then print (StdoutWritten Pubkey pubkeyFilename)
               else print (StdoutKey Pubkey pubkey)) ;;;
              ret (None, toDelete)
          end
      end
  end.

(** [generateKeypair]: the body, then the deferred function. *)
Definition generateKeypair (privkeyFilename pubkeyFilename : String.string)
  : run (option fault) :=
  left <- generateKeypairBody privkeyFilename pubkeyFilename ;;
  let '(err, toDelete) := left in
  deleteFiles toDelete err.

End GenerateKeypair.

(** The files that a trace shows created, and those it shows removed or
    tried to. *)
Definition createdFiles (t : list event) : list String.string :=
  flat_map (fun e => match e with
                     | Call (Create filename) None => [filename]
                     | _ => []
                     end) t.

Definition removedFiles (t : list event) : list String.string :=
  flat_map (fun e => match e with
                     | Call (Remove filename) _ => [filename]
                     | _ => []
                     end) t.

(** The calls of a trace that failed, with their errors. *)
Definition failedCalls (t : list event) : list (syscall * fault) :=
  flat_map (fun e => match e with
                     | Call c (Some err) => [(c, err)]
                     | _ => []
                     end) t.

(** The two lines about the keys on standard output: for each key, that
    it was written to its file, or the key itself when no file is
    named. *)
Definition keyLines (privkey pubkey : bytes)
    (privkeyFilename pubkeyFilename : String.string) : list output :=
  [if negb (isEmpty privkeyFilename)
   then StdoutWritten Privkey privkeyFilename
   else StdoutKey Privkey privkey;
   if negb (isEmpty pubkeyFilename)
   then StdoutWritten Pubkey pubkeyFilename
   else StdoutKey Pubkey pubkey].

(** The lines of a trace that went to standard output. *)
Definition stdoutLines (t : list event) : list output :=
  flat_map (fun e => match e with
                     | Print (StdoutWritten kind filename) =>
                         [StdoutWritten kind filename]
                     | Print (StdoutKey kind key) => [StdoutKey kind key]
                     | _ => []
                     end) t.

(** Example file names and scripts for [generateKeypair]. *)
Module KeyExample.

Import String.StringSyntax.
Local Open Scope string_scope.

Definition privFile : String.string := "server.key".
Definition pubFile : String.string := "server.pub".

(** The key pair is generated and the private key saved, the public key
    file is created, writing to it fails, and so does its removal. *)
Definition pubWriteFails : list (option fault) :=
  [None; None; None; None; None; Some 5%nat; None; None; Some 7%nat].

End KeyExample.

(** More example queries. *)
Module Example2.

(** The query of [Example] that passes every check. *)
Definition valid : Message :=
  Example.txtQuery Example.tunnelName [Example.opt 4096 0].

Definition question : Question :=
  mkQuestion Example.tunnelName RRTypeTXT 1.

(** The same with an OPCODE other than QUERY (IQUERY, 1). *)
Definition inverse : Message :=
  mkMessage 0x1234 0x0900 [question] [] [Example.opt 4096 0].

(** A query without a question. *)
Definition noQuestion : Message :=
  mkMessage 0x1234 0x0100 [] [] [Example.opt 4096 0].

(** A query for the type A (1) under the domain. *)
Definition typeA : Message :=
  mkMessage 0x1234 0x0100 [mkQuestion Example.tunnelName 1 1] []
    [Example.opt 4096 0].

(** A query with EDNS version 1. *)
Definition version1 : Message :=
  Example.txtQuery Example.tunnelName [Example.opt 4096 1].

(** The bundle of [Example.tunnelName], by its pieces. *)
Definition pieces : list chunk :=
  [Packet [Byte.x68; Byte.x69]; Pad [Byte.x00]; Packet [Byte.x21]].

(** The response to [version1]. *)
Definition badvers : Message :=
  mkMessage 0x1234 0x8000 [question] [] [set_RRTTL responseOPT 0x01000000].

(** Two records waiting, from two addresses. *)
Definition first : record nat :=
  mkrecord (Example.response 0x8400 Example.tunnelName [responseOPT])
    1%nat Example.clientID.
Definition second : record nat :=
  mkrecord (Example.response 0x8003 Example.foreignName []) 2%nat zeroClientID.

End Example2.

(** * Properties *)

(** ** Bytes and lengths *)

Lemma len_nonneg {A} (l : list A) : 0 <= len l.
Proof. unfold len. lia. Qed.

Lemma len_app {A} (l1 l2 : list A) : len (l1 ++ l2) = len l1 + len l2.
Proof. unfold len. rewrite length_app. lia. Qed.

Lemma unsigned_of_Z_small (z : Z) :
  0 <= z < 256 -> byte.unsigned (byte.of_Z z) = z.
Proof.
  intros H. rewrite byte.unsigned_of_Z. unfold byte.wrap.
  apply Z.mod_small. lia.
Qed.

Lemma len_firstn_skipn (l1 l2 : bytes) :
  firstn (Z.to_nat (len l1)) (l1 ++ l2) = l1 /\
  skipn (Z.to_nat (len l1)) (l1 ++ l2) = l2.
Proof.
  unfold len. rewrite Nat2Z.id. split.
  - rewrite firstn_app, Nat.sub_diag, firstn_all. simpl. apply app_nil_r.
  - rewrite skipn_app, Nat.sub_diag, skipn_all. reflexivity.
Qed.

(** ** The readers *)

Lemma CopyN_Discard_enough (pad rest : bytes) :
  CopyN_Discard (pad ++ rest) (len pad) = (None, rest).
Proof.
  unfold CopyN_Discard. rewrite len_app.
  pose proof (len_nonneg rest).
  destruct (Z.leb_spec (len pad) (len pad + len rest)); [| lia].
  destruct (len_firstn_skipn pad rest) as [_ ->]. reflexivity.
Qed.

Lemma CopyN_Discard_short (r : Reader) (n : Z) :
  len r < n -> CopyN_Discard r n = (Some EOF, []).
Proof.
  intros H. unfold CopyN_Discard.
  destruct (Z.leb_spec n (len r)); [lia | reflexivity].
Qed.

Lemma ReadFull_enough (body rest : bytes) :
  ReadFull (body ++ rest) (len body) = ((body, None), rest).
Proof.
  unfold ReadFull. rewrite len_app.
  pose proof (len_nonneg rest).
  destruct (Z.leb_spec (len body) (len body + len rest)); [| lia].
  destruct (len_firstn_skipn body rest) as [-> ->]. reflexivity.
Qed.

Lemma ReadFull_short (r : Reader) (n : Z) :
  len r < n ->
  exists p err, ReadFull r n = ((p, Some err), []) /\ eof err = ErrUnexpectedEOF.
Proof.
  intros H. unfold ReadFull.
  destruct (Z.leb_spec n (len r)); [lia |].
  eexists _, _. split; [reflexivity |]. destruct r; reflexivity.
Qed.

(** ** The bundle reader *)

(** C6. For every input, [nextPacket] (1) returns [io.EOF] on an empty
    reader, a clean end at a packet boundary; (2) with a leading byte [n]
    in 0..223 returns the next [n] bytes as one packet, the empty packet
    for [n = 0], and leaves the reader after them; (3) returns
    [io.ErrUnexpectedEOF] when fewer than [n] bytes follow; (4) with a
    leading byte [n] in 224..255 consumes the next [n - 224] bytes and
    goes on decoding after them; (5) returns [io.ErrUnexpectedEOF] when
    fewer than [n - 224] bytes follow. *)
Theorem nextPacket_contract (n : byte) (r : Reader) :
  nextPacket (NewReader []) = (([], Some EOF), []) /\
  (byte.unsigned n < 224 ->
   forall body rest, r = body ++ rest -> len body = byte.unsigned n ->
     nextPacket (n :: r) = ((body, None), rest)) /\
  (byte.unsigned n < 224 -> len r < byte.unsigned n ->
   exists p, nextPacket (n :: r) = ((p, Some ErrUnexpectedEOF), [])) /\
  (224 <= byte.unsigned n ->
   forall pad rest, r = pad ++ rest -> len pad = byte.unsigned n - 224 ->
     nextPacket (n :: r) = nextPacket rest) /\
  (224 <= byte.unsigned n -> len r < byte.unsigned n - 224 ->
   nextPacket (n :: r) = (([], Some ErrUnexpectedEOF), [])).
Proof.
  split; [apply nextPacket_nil |].
  rewrite nextPacket_cons.
  destruct (Z.leb_spec 224 (byte.unsigned n)) as [Hpad | Hpkt];
    (split; [| split; [| split]]); try lia.
  - intros _ pad rest -> Hlen. rewrite <- Hlen, CopyN_Discard_enough.
    reflexivity.
  - intros _ Hshort. rewrite CopyN_Discard_short by assumption. reflexivity.
  - intros _ body rest -> Hlen. rewrite <- Hlen, ReadFull_enough. reflexivity.
  - intros _ Hshort.
    destruct (ReadFull_short r (byte.unsigned n) Hshort) as (p & err & -> & He).
    exists p. simpl. rewrite He. reflexivity.
Qed.

Lemma nextPacket_contract_witness :
  nextPacket [Byte.x02; Byte.x41; Byte.x42; Byte.x00]
    = (([Byte.x41; Byte.x42], None), [Byte.x00]) /\
  (exists p, nextPacket [Byte.x02; Byte.x41] = ((p, Some ErrUnexpectedEOF), [])) /\
  nextPacket [Byte.xe1; Byte.x41; Byte.x00] = nextPacket [Byte.x00] /\
  nextPacket [Byte.xe2; Byte.x41] = (([], Some ErrUnexpectedEOF), []).
Proof.
  split; [| split; [| split]].
  - apply (nextPacket_contract Byte.x02 [Byte.x41; Byte.x42; Byte.x00]);
      [vm_compute | | ]; reflexivity.
  - apply (nextPacket_contract Byte.x02 [Byte.x41]); vm_compute; reflexivity.
  - apply (nextPacket_contract Byte.xe1 [Byte.x41; Byte.x00])
      with (pad := [Byte.x41]);
      [vm_compute; discriminate | | ]; reflexivity.
  - apply (nextPacket_contract Byte.xe2 [Byte.x41]);
      [vm_compute; discriminate | vm_compute; reflexivity].
Defined.

Lemma recvPackets_nil : recvPackets (NewReader []) = ([], EOF).
Proof.
  rewrite recvPackets_step. unfold NewReader. rewrite nextPacket_nil.
  reflexivity.
Qed.

Lemma recvPackets_packet (p rest : bytes) :
  len p <= 223 ->
  recvPackets (byte.of_Z (len p) :: p ++ rest)
  = (p :: fst (recvPackets rest), snd (recvPackets rest)).
Proof.
  intros Hp. pose proof (len_nonneg p).
  rewrite recvPackets_step, nextPacket_cons.
  rewrite unsigned_of_Z_small by lia.
  destruct (Z.leb_spec 224 (len p)); [lia |].
  rewrite ReadFull_enough. reflexivity.
Qed.

(** C4, as amended. For every sequence of packets [ps], each at most 223
    bytes long, the bundle reader ([nextPacket] called until it returns an
    error, as [recvLoop] does) applied to the bundle in which each packet
    is written as a 1-byte length followed by its bytes yields exactly
    [ps] and ends on [io.EOF], the end of the bundle. *)
Theorem upstream_bundle_roundtrip (ps : list bytes) :
  Forall (fun p => len p <= 223) ps ->
  recvPackets (NewReader (upstreamBundle ps)) = (ps, EOF).
Proof.
  unfold NewReader, upstreamBundle.
  induction 1 as [| p ps Hp _ IH]; simpl.
  - apply recvPackets_nil.
  - rewrite recvPackets_packet by assumption. rewrite IH. reflexivity.
Qed.

Lemma upstream_bundle_roundtrip_witness :
  recvPackets (NewReader (upstreamBundle [[Byte.x41]; []; [Byte.x42; Byte.x43]]))
    = ([[Byte.x41]; []; [Byte.x42; Byte.x43]], EOF).
Proof.
  apply (upstream_bundle_roundtrip [[Byte.x41]; []; [Byte.x42; Byte.x43]]).
  repeat constructor; vm_compute; discriminate.
Defined.

(** C4, as stated, fails: [sendLoop] bundles the single packet [0x41] as
    the bytes [00 01 41], and the bundle reader [nextPacket] reads them as
    two packets, an empty one and [0x41]. *)
Lemma downstream_bundle_not_read_back :
  assemble (Addr := unit) [] [[Byte.x41]] None
    = Bundle [Byte.x00; Byte.x01; Byte.x41] [] None [] /\
  len [Byte.x00; Byte.x01; Byte.x41] <= maxEncodedPayload /\
  recvPackets (NewReader [Byte.x00; Byte.x01; Byte.x41])
  = ([[]; [Byte.x41]], EOF) /\
  fst (recvPackets (NewReader [Byte.x00; Byte.x01; Byte.x41])) <> [[Byte.x41]].
Proof.
  split; [vm_compute; reflexivity |].
  split; [vm_compute; discriminate |].
  assert (H : recvPackets (NewReader [Byte.x00; Byte.x01; Byte.x41])
              = ([[]; [Byte.x41]], EOF)) by (vm_compute; reflexivity).
  split; [exact H | rewrite H; discriminate].
Qed.

(** ** The byte budget *)

(** C5, as amended. [maxEncodedPayload] is 930, which does not exceed
    (1232 - 294) * 255 / 256 = 934 (the quotient rounded down), and the
    MTU given to the reliable transport is [maxEncodedPayload - 2] = 928. *)
Theorem maxEncodedPayload_below_limit :
  maxUDPPayload = 1232 /\
  maxEncodedPayload = 930 /\
  (maxUDPPayload - 294) * 255 / 256 = 934 /\
  maxEncodedPayload <= (maxUDPPayload - 294) * 255 / 256 /\
  sessionMtu = maxEncodedPayload - 2 /\
  sessionMtu = 928.
Proof. repeat split; vm_compute; congruence. Qed.

(** C5, as stated, fails: the constant is not the value of the formula,
    neither rounded down nor as an exact fraction. *)
Lemma maxEncodedPayload_not_formula :
  maxEncodedPayload <> (maxUDPPayload - 294) * 255 / 256 /\
  maxEncodedPayload * 256 <> (maxUDPPayload - 294) * 255.
Proof. split; vm_compute; discriminate. Qed.

(** ** The EDNS loop of [responseFor] *)

(** The loop looks at the OPT RRs only. *)
Lemma ednsLoop_filter (additional : list RR) (resp : Message) (payloadSize : Z) :
  ednsLoop additional resp payloadSize
  = ednsLoop (filter isOPT additional) resp payloadSize.
Proof.
  revert resp payloadSize.
  induction additional as [| rr rest IH]; intros resp payloadSize; simpl;
    [reflexivity |].
  destruct (isOPT rr) eqn:E; simpl; [| apply IH].
  rewrite E. simpl.
  destruct (len (Additional resp) =? 0); simpl; [| reflexivity].
  destruct (ednsVersion rr =? 0); simpl; [apply IH | reflexivity].
Qed.

Lemma filter_isOPT_head (additional : list RR) o more :
  filter isOPT additional = o :: more ->
  isOPT o = true /\ filter isOPT more = more.
Proof.
  intros H.
  assert (Hall : Forall (fun rr => isOPT rr = true) (o :: more)).
  { rewrite <- H. apply Forall_forall. intros rr Hin.
    apply filter_In in Hin. tauto. }
  inversion Hall as [| ? ? Ho Hmore]; subst. split; [assumption |].
  clear H Hall Ho. induction more as [| rr more IH]; [reflexivity |].
  inversion Hmore as [| ? ? Hrr Hmore']; subst. simpl. rewrite Hrr.
  f_equal. apply IH. assumption.
Qed.

(** What the loop does, by the OPT RRs of the query: none, the loop runs
    through; a first one of a version other than 0, BADVERS; a first one
    of version 0 and a second one, FORMERR; exactly one, of version 0, the
    loop runs through with the server's OPT RR in the response and the
    requestor's payload size. *)
Lemma ednsLoop_cases (additional : list RR) (resp : Message) (payloadSize : Z) :
  Additional resp = [] ->
  ednsLoop additional resp payloadSize =
  match filter isOPT additional with
  | [] => inr (resp, payloadSize)
  | o :: more =>
      if ednsVersion o =? 0 then
        match more with
        | [] => inr (withOPT resp, RRClass o)
        | _ :: _ =>
            inl (set_Flags (withOPT resp) (Z.lor (Flags resp) RcodeFormatError))
        end
      else
        inl (set_Additional0_TTL
               (set_Flags (withOPT resp)
                  (Z.lor (Flags resp) (Z.land ExtendedRcodeBadVers 0xf)))
               (Z.shiftl (Z.shiftr ExtendedRcodeBadVers 4) 24))
  end.
Proof.
  intros Hnil. rewrite ednsLoop_filter.
  destruct (filter isOPT additional) as [| o more] eqn:E; [reflexivity |].
  apply filter_isOPT_head in E. destruct E as [Ho Hmore].
  unfold withOPT. simpl. rewrite Ho, Hnil. simpl.
  destruct (ednsVersion o =? 0); simpl; [| reflexivity].
  destruct more as [| o2 more']; [reflexivity |].
  simpl in Hmore. destruct (isOPT o2) eqn:Ho2.
  - simpl. rewrite Ho2. reflexivity.
  - exfalso. assert (Hin : In o2 (filter isOPT more')).
    { rewrite Hmore. left. reflexivity. }
    apply filter_In in Hin. destruct Hin as [_ Hin]. congruence.
Qed.

Lemma existsb_isOPT_filter (additional : list RR) :
  existsb isOPT additional
  = match filter isOPT additional with [] => false | _ :: _ => true end.
Proof.
  induction additional as [| rr rest IH]; simpl; [reflexivity |].
  destruct (isOPT rr); simpl; [reflexivity | exact IH].
Qed.

(** ** The DNS state machine *)

(** Splits a goal about [responseFor] into the paths of the function. *)
Ltac responseFor_paths :=
  repeat match goal with
    | |- context [match ?x with _ => _ end] =>
        lazymatch x with
        | context [match _ with _ => _ end] => fail
        | _ => destruct x eqn:?
        end
    end.

(** Closes a path whose tests contradict each other. *)
Ltac excluded :=
  match goal with
  | H : _ = false |- _ => solve [cbn in H; discriminate H]
  | H : _ = true |- _ => solve [cbn in H; discriminate H]
  end.

Ltac returned :=
  match goal with
  | H : (_, _, _) = (_, _, _) |- _ => inversion H; subst; clear H
  end.

Section ResponseForProperties.

Context {ext : External}.

(** C2. For every query for which [responseFor] returns a response, the
    response has the ID of the query and its Question section
    unchanged, and its Additional section contains an OPT RR if and
    only if the Additional section of the query contains one. *)
Theorem responseFor_echoes (query : Message) (domain : Name)
    (resp : Message) (clientID : ClientID) (payload : bytes) :
  responseFor query domain = (Some resp, clientID, payload) ->
  ID resp = ID query /\
  Questions resp = Questions query /\
  existsb isOPT (Additional resp) = existsb isOPT (Additional query).
Proof.
  unfold responseFor.
  rewrite ednsLoop_cases by reflexivity.
  rewrite (existsb_isOPT_filter (Additional query)).
  responseFor_paths; intros H; try discriminate; returned; simpl; auto.
Qed.

Variable Addr : Type.

(** An empty payload gives the packet connection nothing. *)
Lemma recvQuery_empty_payload (domain : Name) (query : Message) (addr : Addr)
    (room : bool) :
  snd (responseFor query domain) = [] ->
  snd (recvQuery domain query addr room) = [].
Proof.
  unfold recvQuery.
  destruct (responseFor query domain) as [[resp clientID] payload].
  simpl. intros ->. rewrite recvPackets_nil. reflexivity.
Qed.

(** C3, as amended. For every message whose Additional section contains
    two or more OPT RRs, [responseFor] returns an empty payload and
    [recvLoop] enqueues no packet; when the message is a query (QR = 0)
    and its first OPT RR has EDNS version 0, the response has
    RCODE = FORMERR. *)
Theorem responseFor_two_OPT (query : Message) (domain : Name)
    (o1 o2 : RR) (more : list RR) :
  filter isOPT (Additional query) = o1 :: o2 :: more ->
  snd (responseFor query domain) = [] /\
  (forall (addr : Addr) room, snd (recvQuery domain query addr room) = []) /\
  (Z.land (Flags query) 0x8000 = 0 -> ednsVersion o1 = 0 ->
   exists resp,
     responseFor query domain = (Some resp, zeroClientID, []) /\
     Rcode resp = RcodeFormatError).
Proof.
  intros Hopt.
  assert (Hpayload : snd (responseFor query domain) = []).
  { unfold responseFor.
    rewrite ednsLoop_cases, Hopt by reflexivity.
    destruct (negb _); [reflexivity |].
    destruct (ednsVersion o1 =? 0); reflexivity. }
  split; [exact Hpayload |].
  split; [intros; apply recvQuery_empty_payload; exact Hpayload |].
  intros HQR Hversion. unfold responseFor.
  rewrite HQR, ednsLoop_cases, Hopt, Hversion by reflexivity.
  eexists. split; reflexivity.
Qed.

Lemma ednsAccepted_loop (query : Message) (resp : Message) :
  ednsAccepted query -> Additional resp = [] ->
  exists resp',
    ednsLoop (Additional query) resp 0
      = inr (resp', requestedPayloadSize (Additional query)) /\
    Flags resp' = Flags resp.
Proof.
  intros Hacc Hnil. unfold requestedPayloadSize.
  rewrite ednsLoop_cases by assumption.
  destruct Hacc as [-> | (o & -> & ->)]; simpl.
  - exists resp. split; reflexivity.
  - exists (withOPT resp). split; reflexivity.
Qed.

(** C7, as amended. For every message with exactly one Question whose
    name does not end in the configured suffix, [responseFor] returns an
    empty payload, [recvLoop] enqueues no packet, and a response, if
    there is one, has AA = 0; when the message is a query (QR = 0) that
    the EDNS checks let through (no OPT RR, or exactly one, of version
    0), the response has RCODE = NXDOMAIN and AA = 0. *)
Theorem responseFor_foreign_name (query : Message) (domain : Name)
    (question : Question) :
  Questions query = [question] ->
  snd (TrimSuffix (QName question) domain) = false ->
  snd (responseFor query domain) = [] /\
  (forall (addr : Addr) room, snd (recvQuery domain query addr room) = []) /\
  (forall resp, fst (fst (responseFor query domain)) = Some resp ->
                AA resp = false) /\
  (Z.land (Flags query) 0x8000 = 0 -> ednsAccepted query ->
   exists resp,
     responseFor query domain = (Some resp, zeroClientID, []) /\
     Rcode resp = RcodeNameError /\ AA resp = false).
Proof.
  intros Hq Hsuffix.
  destruct (TrimSuffix (QName question) domain) as [prefix ok] eqn:Htrim.
  simpl in Hsuffix. subst ok.
  assert (Hpayload : snd (responseFor query domain) = []).
  { unfold responseFor.
    rewrite ednsLoop_cases, Hq, Htrim by reflexivity.
    responseFor_paths; try reflexivity; excluded. }
  split; [exact Hpayload |].
  split; [intros; apply recvQuery_empty_payload; exact Hpayload |].
  split.
  - unfold responseFor.
    rewrite ednsLoop_cases, Hq, Htrim by reflexivity.
    responseFor_paths; try excluded; simpl; intros resp H;
      try discriminate; inversion H; subst; reflexivity.
  - intros HQR Hacc. unfold responseFor.
    destruct (ednsAccepted_loop query
                (mkMessage (ID query) 0x8000 (Questions query) [] [])
                Hacc eq_refl) as (resp' & -> & Hflags).
    simpl in Hflags.
    rewrite HQR, Hq, Htrim. simpl. rewrite Hflags. simpl.
    eexists. split; [reflexivity |]. split; reflexivity.
Qed.

Lemma copyClientID_enough (payload : bytes) :
  clientIDLen <= len payload ->
  exists clientID,
    copyClientID zeroClientID payload = (clientID, clientIDLen) /\
    len clientID = clientIDLen.
Proof.
  intros H. unfold copyClientID.
  change (len zeroClientID) with clientIDLen.
  rewrite Z.min_l by assumption.
  eexists. split; [reflexivity |].
  rewrite len_app. unfold len in *.
  rewrite length_firstn, length_skipn. change (length zeroClientID) with 8%nat.
  unfold clientIDLen in *. lia.
Qed.

Lemma copyClientID_short (payload : bytes) :
  len payload < clientIDLen ->
  exists clientID n,
    copyClientID zeroClientID payload = (clientID, n) /\ n < len clientID.
Proof.
  intros H. unfold copyClientID.
  change (len zeroClientID) with clientIDLen.
  pose proof (len_nonneg payload).
  rewrite Z.min_r by lia.
  eexists _, _. split; [reflexivity |].
  rewrite len_app. unfold len in *.
  rewrite length_firstn, length_skipn. change (length zeroClientID) with 8%nat.
  unfold clientIDLen in *. lia.
Qed.

(** C8. For every query (QR = 0, OPCODE = QUERY) that the EDNS checks
    let through, with a single Question, whose advertised payload size,
    counted as 512 when it is lower or when there is no OPT RR, is
    smaller than 1232: if the question passes the name-based checks, the
    response has RCODE = FORMERR and AA = 1 and the payload is empty;
    and the check comes after the name-based ones, a response with
    FORMERR being returned only to a question that passed them and any
    other response being NXDOMAIN, with an empty payload too. *)
Theorem responseFor_small_payload_size (query : Message) (domain : Name)
    (question : Question) :
  Z.land (Flags query) 0x8000 = 0 ->
  Z.land (Flags query) 0x7800 = 0 ->
  ednsAccepted query ->
  Questions query = [question] ->
  advertisedPayloadSize (Additional query) < maxUDPPayload ->
  (nameAccepted question domain ->
   exists resp clientID,
     responseFor query domain = (Some resp, clientID, []) /\
     Rcode resp = RcodeFormatError /\ AA resp = true) /\
  (exists resp clientID,
     responseFor query domain = (Some resp, clientID, []) /\
     (Rcode resp = RcodeNameError \/
      Rcode resp = RcodeFormatError /\ nameAccepted question domain)) /\
  (forall (addr : Addr) room, snd (recvQuery domain query addr room) = []).
Proof.
  intros HQR Hopcode Hacc Hq Hsmall.
  apply Z.ltb_lt in Hsmall.
  destruct (ednsAccepted_loop query
              (mkMessage (ID query) 0x8000 (Questions query) [] [])
              Hacc eq_refl) as (resp' & Hloop & Hflags).
  simpl in Hflags.
  assert (Hfor : responseFor query domain =
    let '(prefix, ok) := TrimSuffix (QName question) domain in
    if ok then
      if negb (QType question =? RRTypeTXT) then
        (Some (set_Flags resp' 0x8403), zeroClientID, [])
      else
        match base32Decode (ToUpper (concat prefix)) with
        | None => (Some (set_Flags resp' 0x8403), zeroClientID, [])
        | Some payload =>
            let '(clientID, n) := copyClientID zeroClientID payload in
            if n <? len clientID then
              (Some (set_Flags resp' 0x8403), clientID, [])
            else (Some (set_Flags resp' 0x8401), clientID, [])
        end
    else (Some (set_Flags resp' 0x8003), zeroClientID, [])).
  { unfold responseFor. rewrite HQR, Hloop, Hq, Hopcode.
    cbv zeta.
    change (if requestedPayloadSize (Additional query) <? 512 then 512
            else requestedPayloadSize (Additional query))
      with (advertisedPayloadSize (Additional query)).
    rewrite Hsmall.
    destruct (TrimSuffix (QName question) domain) as [prefix [|]];
      simpl; rewrite Hflags; reflexivity. }
  assert (Hmain : nameAccepted question domain ->
    exists resp clientID,
      responseFor query domain = (Some resp, clientID, []) /\
      Rcode resp = RcodeFormatError /\ AA resp = true).
  { intros (prefix & payload & Htrim & Htype & Hdecode & Hlen).
    destruct (copyClientID_enough payload Hlen) as (clientID & Hcopy & Hcid).
    rewrite Hfor, Htrim, Htype, Z.eqb_refl, Hdecode. cbn [negb].
    rewrite Hcopy, Hcid, Z.ltb_irrefl.
    eexists _, _. split; [reflexivity |]. split; reflexivity. }
  split; [exact Hmain |].
  assert (Hall : exists resp clientID,
     responseFor query domain = (Some resp, clientID, []) /\
     (Rcode resp = RcodeNameError \/
      Rcode resp = RcodeFormatError /\ nameAccepted question domain)).
  { rewrite Hfor.
    destruct (TrimSuffix (QName question) domain) as [prefix [|]] eqn:Htrim;
      [| eexists _, _; split; [reflexivity | left; reflexivity]].
    destruct (Z.eqb_spec (QType question) RRTypeTXT) as [Htype | Htype];
      cbn [negb]; [| eexists _, _; split; [reflexivity | left; reflexivity]].
    destruct (base32Decode (ToUpper (concat prefix))) as [payload |] eqn:Hdecode;
      [| eexists _, _; split; [reflexivity | left; reflexivity]].
    destruct (Z.lt_ge_cases (len payload) clientIDLen) as [Hshort | Hlen].
    - destruct (copyClientID_short payload Hshort) as (clientID & n & -> & Hn).
      apply Z.ltb_lt in Hn. rewrite Hn.
      eexists _, _. split; [reflexivity | left; reflexivity].
    - destruct (copyClientID_enough payload Hlen) as (clientID & -> & Hcid).
      rewrite Hcid, Z.ltb_irrefl.
      eexists _, _. split; [reflexivity |]. right. split; [reflexivity |].
      exists prefix, payload. auto. }
  split; [exact Hall |].
  intros addr room. apply recvQuery_empty_payload.
  destruct Hall as (resp & clientID & -> & _). reflexivity.
Qed.

End ResponseForProperties.

(** *** The state machine on the example queries *)

Lemma responseFor_echoes_witness :
  responseFor (ext := Model.external)
    (Example.txtQuery Example.tunnelName [Example.opt 4096 0]) Example.domain
  = (Some (Example.response 0x8400 Example.tunnelName [responseOPT]),
     Example.clientID, Example.bundle) /\
  ID (Example.response 0x8400 Example.tunnelName [responseOPT]) = 0x1234 /\
  Questions (Example.response 0x8400 Example.tunnelName [responseOPT])
  = [mkQuestion Example.tunnelName RRTypeTXT 1] /\
  existsb isOPT
    (Additional (Example.response 0x8400 Example.tunnelName [responseOPT]))
  = true.
Proof.
  assert (H : responseFor (ext := Model.external)
                (Example.txtQuery Example.tunnelName [Example.opt 4096 0])
                Example.domain
              = (Some (Example.response 0x8400 Example.tunnelName [responseOPT]),
                 Example.clientID, Example.bundle))
    by (vm_compute; reflexivity).
  split; [exact H |].
  exact (responseFor_echoes _ _ _ _ _ H).
Defined.

Lemma responseFor_two_OPT_witness :
  snd (responseFor (ext := Model.external)
         (Example.txtQuery Example.tunnelName
            [Example.opt 4096 0; Example.opt 1232 0]) Example.domain) = [] /\
  snd (recvQuery (ext := Model.external) Example.domain
         (Example.txtQuery Example.tunnelName
            [Example.opt 4096 0; Example.opt 1232 0]) tt true) = [] /\
  exists resp,
    responseFor (ext := Model.external)
      (Example.txtQuery Example.tunnelName
         [Example.opt 4096 0; Example.opt 1232 0]) Example.domain
    = (Some resp, zeroClientID, []) /\
    Rcode resp = RcodeFormatError.
Proof.
  destruct (responseFor_two_OPT (ext := Model.external) unit
              (Example.txtQuery Example.tunnelName
                 [Example.opt 4096 0; Example.opt 1232 0])
              Example.domain (Example.opt 4096 0) (Example.opt 1232 0) []
              eq_refl) as (Hpayload & Hqueue & Hresp).
  split; [exact Hpayload |].
  split; [apply Hqueue |].
  apply Hresp; reflexivity.
Defined.

(** C3, as stated, fails: a query with two OPT RRs whose first one has
    EDNS version 1 is answered with BADVERS (RCODE bits 0, the high bits
    in the TTL of the response's OPT RR), not with FORMERR; and a message
    with two OPT RRs and QR = 1 gets no response at all. *)
Lemma responseFor_two_OPT_not_FORMERR :
  responseFor (ext := Model.external)
    (Example.txtQuery Example.tunnelName
       [Example.opt 4096 1; Example.opt 4096 0]) Example.domain
  = (Some (Example.response 0x8000 Example.tunnelName [Example.badversOPT]),
     zeroClientID, []) /\
  Rcode (Example.response 0x8000 Example.tunnelName [Example.badversOPT])
  <> RcodeFormatError /\
  responseFor (ext := Model.external)
    (mkMessage 0x1234 0x8100 [mkQuestion Example.tunnelName RRTypeTXT 1] []
       [Example.opt 4096 0; Example.opt 4096 0]) Example.domain
  = (None, zeroClientID, []).
Proof.
  split; [vm_compute; reflexivity |].
  split; [vm_compute; discriminate | vm_compute; reflexivity].
Qed.

Lemma responseFor_foreign_name_witness :
  snd (responseFor (ext := Model.external)
         (Example.txtQuery Example.foreignName [Example.opt 4096 0])
         Example.domain) = [] /\
  snd (recvQuery (ext := Model.external) Example.domain
         (Example.txtQuery Example.foreignName [Example.opt 4096 0]) tt true)
  = [] /\
  exists resp,
    responseFor (ext := Model.external)
      (Example.txtQuery Example.foreignName [Example.opt 4096 0])
      Example.domain
    = (Some resp, zeroClientID, []) /\
    Rcode resp = RcodeNameError /\ AA resp = false.
Proof.
  destruct (responseFor_foreign_name (ext := Model.external) unit
              (Example.txtQuery Example.foreignName [Example.opt 4096 0])
              Example.domain (mkQuestion Example.foreignName RRTypeTXT 1)
              eq_refl eq_refl) as (Hpayload & Hqueue & _ & Hresp).
  split; [exact Hpayload |].
  split; [apply Hqueue |].
  apply Hresp; [reflexivity |].
  right. exists (Example.opt 4096 0). split; reflexivity.
Defined.

(** C7, as stated, fails: a query for a name outside the domain that
    carries two OPT RRs is answered with FORMERR, the EDNS checks coming
    before the check of the name. *)
Lemma responseFor_foreign_name_FORMERR :
  snd (TrimSuffix (External := Model.external) Example.foreignName Example.domain)
  = false /\
  responseFor (ext := Model.external)
    (Example.txtQuery Example.foreignName
       [Example.opt 4096 0; Example.opt 4096 0]) Example.domain
  = (Some (Example.response 0x8001 Example.foreignName [responseOPT]),
     zeroClientID, []) /\
  Rcode (Example.response 0x8001 Example.foreignName [responseOPT])
  <> RcodeNameError.
Proof.
  split; [vm_compute; reflexivity |].
  split; [vm_compute; reflexivity | vm_compute; discriminate].
Qed.

Lemma responseFor_small_payload_size_witness :
  exists resp clientID,
    responseFor (ext := Model.external)
      (Example.txtQuery Example.tunnelName [Example.opt 512 0]) Example.domain
    = (Some resp, clientID, []) /\
    Rcode resp = RcodeFormatError /\ AA resp = true.
Proof.
  apply (responseFor_small_payload_size (ext := Model.external) unit
           (Example.txtQuery Example.tunnelName [Example.opt 512 0])
           Example.domain (mkQuestion Example.tunnelName RRTypeTXT 1)).
  - reflexivity.
  - reflexivity.
  - right. exists (Example.opt 512 0). split; reflexivity.
  - reflexivity.
  - vm_compute. reflexivity.
  - exists Example.tunnelPrefix,
      (Example.clientID ++ Example.bundle).
    split; [vm_compute; reflexivity |].
    split; [reflexivity |].
    split; [vm_compute; reflexivity | vm_compute; discriminate].
Defined.

(** ** The downstream bundle *)

Lemma uint16_small (n : Z) : 0 <= n <= 65535 -> uint16 n = n.
Proof. intros H. unfold uint16. apply Z.mod_small. lia. Qed.

Lemma BigEndian_uint16_value (v : Z) :
  0 <= v <= 65535 ->
  exists hi lo,
    BigEndian_uint16 v = [hi; lo] /\
    256 * byte.unsigned hi + byte.unsigned lo = v.
Proof.
  intros H. unfold BigEndian_uint16. eexists _, _. split; [reflexivity |].
  rewrite !byte.unsigned_of_Z. unfold byte.wrap.
  rewrite Z.shiftr_div_pow2 by lia.
  change (2 ^ 8) with 256.
  rewrite (Z.mod_small (v / 256))
    by (split; [apply Z.div_pos | apply Z.div_lt_upper_bound]; lia).
  pose proof (Z.div_mod v 256). lia.
Qed.

Section SendLoopProperties.

Context {ext : External}.
Variable Addr : Type.

Lemma bundleLoop_no_panic (queue : list bytes) :
  Forall (fun p => len p <= 65535) queue ->
  forall limit payload (wake : option (record Addr)),
  exists payload' nextP nextRec queue',
    bundleLoop limit payload queue wake = Bundle payload' nextP nextRec queue'.
Proof.
  induction 1 as [| p queue Hp _ IH]; intros limit payload wake;
    cbn [bundleLoop].
  - eexists _, _, _, _. reflexivity.
  - pose proof (len_nonneg p).
    rewrite uint16_small, Z.eqb_refl by lia. cbn [negb].
    destruct (2 + len p >? limit).
    + eexists _, _, _, _. reflexivity.
    + apply IH.
Qed.

(** C10. If every packet that [sendLoop] dequeues while it assembles a
    response is at most 65535 bytes long, the turn of the loop does not
    panic, the guard [int(uint16(len(p))) != len(p)] being false for
    each of them, and the two bytes written before each packet are the
    big-endian form of its length. *)
Theorem sendLoop_no_panic (nextP : bytes) (rec : record Addr)
    (queue : list bytes) (wake : option (record Addr)) :
  Forall (fun p => len p <= 65535) queue ->
  (exists resp datagram nextP' nextRec queue',
     sendRecord nextP rec queue wake
     = Sent resp datagram nextP' nextRec queue') /\
  Forall (fun p =>
            negb (uint16 (len p) =? len p) = false /\
            exists hi lo,
              frame p = hi :: lo :: p /\
              256 * byte.unsigned hi + byte.unsigned lo = len p) queue.
Proof.
  intros Hqueue. split.
  - unfold sendRecord.
    destruct ((Rcode (Resp rec) =? RcodeNoError)
              && (len (Questions (Resp rec)) =? 1));
      [| eexists _, _, _, _, _; reflexivity].
    destruct (Questions (Resp rec)) as [| question questions];
      [eexists _, _, _, _, _; reflexivity |].
    unfold assemble. destruct (leftover nextP) as [limit payload].
    destruct (bundleLoop_no_panic queue Hqueue limit payload wake)
      as (payload' & nextP' & nextRec & queue' & ->).
    eexists _, _, _, _, _. reflexivity.
  - eapply Forall_impl; [| exact Hqueue].
    intros p Hp. cbv beta in Hp. pose proof (len_nonneg p).
    unfold frame. rewrite uint16_small, Z.eqb_refl by lia.
    split; [reflexivity |].
    destruct (BigEndian_uint16_value (len p)) as (hi & lo & -> & Hvalue);
      [lia |].
    exists hi, lo. split; [reflexivity | exact Hvalue].
Qed.

Lemma fitted_cons (limit : Z) (p : bytes) (taken : list bytes) :
  2 + len p <= limit ->
  fitted (limit - (2 + len p)) taken ->
  fitted limit (p :: taken).
Proof.
  intros Hp Htaken [| p' before] q after Heq; cbn [app] in Heq;
    inversion Heq; subst.
  - cbn [encodedSize fold_right]. lia.
  - specialize (Htaken before q after eq_refl).
    cbn [encodedSize fold_right]. fold (encodedSize before). lia.
Qed.

Lemma bundleLoop_order (queue : list bytes) :
  forall limit payload (wake : option (record Addr))
         payload' nextP nextRec queue',
    bundleLoop limit payload queue wake
    = Bundle payload' nextP nextRec queue' ->
    exists taken,
      payload' = payload ++ concat (map frame taken) /\
      fitted limit taken /\
      (queue = taken /\ nextP = [] /\ nextRec = wake /\ queue' = [] \/
       queue = taken ++ nextP :: queue' /\ nextRec = None /\
       2 + len nextP > limit - encodedSize taken).
Proof.
  induction queue as [| p queue IH];
    intros limit payload wake payload' nextP nextRec queue';
    cbn [bundleLoop].
  - intros H. inversion H; subst. exists []. cbn [map concat].
    rewrite app_nil_r. split; [reflexivity |].
    split; [intros [| ? ?] ? ? Heq; discriminate Heq | left; auto].
  - destruct (negb (uint16 (len p) =? len p)) eqn:Hguard; [discriminate |].
    apply negb_false_iff, Z.eqb_eq in Hguard.
    destruct (2 + len p >? limit) eqn:Hfit.
    + intros H. inversion H; subst. exists []. cbn [map concat].
      rewrite app_nil_r. split; [reflexivity |].
      split; [intros [| ? ?] ? ? Heq; discriminate Heq |].
      right. cbn [app encodedSize fold_right].
      apply Z.gtb_lt in Hfit. repeat split; lia.
    + intros H. apply IH in H.
      destruct H as (taken & Hpayload & Hfitted & Hend).
      assert (Hp : 2 + len p <= limit).
      { destruct (Z.gtb_spec (2 + len p) limit); [discriminate | lia]. }
      exists (p :: taken). split.
      * rewrite Hpayload. cbn [map concat]. unfold frame at 2.
        rewrite <- !app_assoc. reflexivity.
      * split; [apply fitted_cons; assumption |].
        cbn [encodedSize fold_right]. fold (encodedSize taken).
        destruct Hend as [(-> & -> & -> & ->) | (-> & -> & Hover)].
        -- left. auto.
        -- right. cbn [app]. repeat split; lia.
Qed.

(** The bundle goes into the Answer section of a response without error
    to a single question. *)
Lemma sendRecord_bundle (nextP : bytes) (rec : record Addr)
    (queue : list bytes) (wake : option (record Addr)) (question : Question)
    resp datagram nextP' nextRec queue' :
  Rcode (Resp rec) = RcodeNoError ->
  Questions (Resp rec) = [question] ->
  sendRecord nextP rec queue wake = Sent resp datagram nextP' nextRec queue' ->
  exists payload,
    assemble nextP queue wake = Bundle payload nextP' nextRec queue' /\
    Answer resp
    = [mkRR (QName question) (QType question) (QClass question) responseTTL
            (EncodeRDataTXT payload)].
Proof.
  intros Hrcode Hq. unfold sendRecord. rewrite Hrcode, Hq. cbn [andb].
  change (len [question] =? 1) with true. cbv iota.
  change (RcodeNoError =? RcodeNoError) with true. cbv iota.
  destruct (assemble nextP queue wake) as [payload p r q | n]; [| discriminate].
  intros H. inversion H; subst. exists payload. split; reflexivity.
Qed.

(** C9. The bundle of a response holds, in this order: the leftover
    [nextP] of the previous response if it is not empty, written as its
    2-byte big-endian length and its bytes whatever its size; then the
    packets [taken] from the client's outgoing queue, in the order of
    the queue, each of which fitted in the room left. The bundle ends
    with the queue, or with the first packet for which [2 + len] exceeds
    the room left: that packet is not in the bundle, it is the [nextP]
    of the next response. *)
Theorem assemble_order (nextP : bytes) (queue : list bytes)
    (wake : option (record Addr)) (payload nextP' : bytes)
    (nextRec : option (record Addr)) (queue' : list bytes) :
  assemble nextP queue wake = Bundle payload nextP' nextRec queue' ->
  let first := if len nextP >? 0 then [nextP] else [] in
  let room := maxEncodedPayload - encodedSize first in
  exists taken,
    payload = concat (map frame (first ++ taken)) /\
    fitted room taken /\
    (queue = taken /\ nextP' = [] /\ nextRec = wake /\ queue' = [] \/
     queue = taken ++ nextP' :: queue' /\ nextRec = None /\
     2 + len nextP' > room - encodedSize taken).
Proof.
  unfold assemble, leftover.
  destruct (len nextP >? 0); intros H; apply bundleLoop_order in H;
    destruct H as (taken & Hpayload & Hfitted & Hend); cbv zeta;
    exists taken; cbn [encodedSize fold_right app map concat].
  - replace (maxEncodedPayload - (2 + len nextP + 0))
      with (maxEncodedPayload - (2 + len nextP)) by lia.
    split; [| split; assumption].
    rewrite Hpayload. unfold frame at 2. rewrite <- !app_assoc. reflexivity.
  - rewrite Z.sub_0_r. split; [| split; assumption]. exact Hpayload.
Qed.

(** *** Truncation *)

Lemma byte_or_TC (b2 : byte) :
  Z.testbit (byte.unsigned (byte_or b2 (byte.of_Z 0x02))) 1 = true.
Proof. destruct b2; reflexivity. Qed.

Lemma truncate_fits (buf : bytes) :
  len buf <= maxUDPPayload -> truncate buf = buf.
Proof.
  intros H. unfold truncate.
  destruct (Z.gtb_spec (len buf) maxUDPPayload); [lia | reflexivity].
Qed.

Lemma truncate_long (buf : bytes) :
  maxUDPPayload < len buf ->
  exists b0 b1 b2 rest,
    firstn (Z.to_nat maxUDPPayload) buf = b0 :: b1 :: b2 :: rest /\
    truncate buf = b0 :: b1 :: byte_or b2 (byte.of_Z 0x02) :: rest.
Proof.
  intros H. unfold truncate.
  destruct (Z.gtb_spec (len buf) maxUDPPayload); [| lia].
  assert (Hlen : length (firstn (Z.to_nat maxUDPPayload) buf)
                 = Z.to_nat maxUDPPayload).
  { apply firstn_length_le. unfold len in H. lia. }
  destruct (firstn (Z.to_nat maxUDPPayload) buf) as [| b0 [| b1 [| b2 rest]]];
    try (exfalso; revert Hlen; vm_compute; discriminate).
  exists b0, b1, b2, rest. split; reflexivity.
Qed.

Lemma truncate_bounded (buf : bytes) : len (truncate buf) <= maxUDPPayload.
Proof.
  destruct (Z.le_gt_cases (len buf) maxUDPPayload) as [Hle | Hgt].
  - rewrite truncate_fits; assumption.
  - destruct (truncate_long buf Hgt) as (b0 & b1 & b2 & rest & Hfirst & ->).
    assert (Hsize : length (firstn (Z.to_nat maxUDPPayload) buf)
                    = Z.to_nat maxUDPPayload).
    { apply firstn_length_le. unfold len in Hgt. lia. }
    rewrite Hfirst in Hsize. unfold len. cbn [length] in *.
    rewrite Hsize. rewrite Z2Nat.id by discriminate. lia.
Qed.

(** [responseFor] never sets the TC flag (bit 9 of the flags). *)
Lemma responseFor_TC_clear (query : Message) (domain : Name)
    (resp : Message) (clientID : ClientID) (payload : bytes) :
  responseFor query domain = (Some resp, clientID, payload) ->
  Z.testbit (Flags resp) 9 = false.
Proof.
  unfold responseFor. rewrite ednsLoop_cases by reflexivity.
  responseFor_paths; intros H; try discriminate; returned; reflexivity.
Qed.

(** A turn of [sendLoop] changes the Answer section of the response
    only, and writes what [emit] makes of it. *)
Lemma sendRecord_sent (nextP : bytes) (rec : record Addr)
    (queue : list bytes) (wake : option (record Addr)) resp datagram
    nextP' nextRec queue' :
  sendRecord nextP rec queue wake = Sent resp datagram nextP' nextRec queue' ->
  datagram = emit resp /\
  ID resp = ID (Resp rec) /\ Flags resp = Flags (Resp rec) /\
  Questions resp = Questions (Resp rec) /\
  Additional resp = Additional (Resp rec).
Proof.
  unfold sendRecord.
  destruct ((Rcode (Resp rec) =? RcodeNoError)
            && (len (Questions (Resp rec)) =? 1));
    [| intros H; inversion H; subst; auto].
  destruct (Questions (Resp rec)) as [| question questions] eqn:Hq;
    [intros H; inversion H; subst; auto |].
  destruct (assemble nextP queue wake); [| discriminate].
  intros H; inversion H; subst. cbn. auto.
Qed.

(** C1. Every datagram [D] that a turn of [sendLoop] writes is at most
    1232 bytes long. When the serialized response [buf] is longer than
    1232 bytes, [D] is exactly 1232 bytes long: the first 1232 bytes of
    [buf] with bit [0x02] of the byte at offset 2, the TC flag, set.
    Otherwise [D] is [buf] as it is. For a response built by
    [responseFor] and a serialization that writes the flags of the
    message at their place, the TC flag of [D] is set if and only if
    the response was truncated. *)
Theorem sendLoop_datagram (nextP : bytes) (rec : record Addr)
    (queue : list bytes) (wake : option (record Addr)) (resp : Message)
    (D : bytes) (nextP' : bytes) (nextRec : option (record Addr))
    (queue' : list bytes) :
  sendRecord nextP rec queue wake = Sent resp (Some D) nextP' nextRec queue' ->
  exists buf,
    WireFormat resp = Some buf /\
    len D <= maxUDPPayload /\
    (maxUDPPayload < len buf ->
     len D = maxUDPPayload /\ TC D = true /\
     exists b0 b1 b2 rest,
       firstn (Z.to_nat maxUDPPayload) buf = b0 :: b1 :: b2 :: rest /\
       D = b0 :: b1 :: byte_or b2 (byte.of_Z 0x02) :: rest) /\
    (len buf <= maxUDPPayload -> D = buf) /\
    ((forall m b, WireFormat m = Some b -> TC b = Z.testbit (Flags m) 9) ->
     (exists query domain payload,
        responseFor query domain = (Some (Resp rec), RClientID rec, payload)) ->
     (TC D = true <-> maxUDPPayload < len buf)).
Proof.
  intros Hsent. apply sendRecord_sent in Hsent.
  destruct Hsent as (Hemit & _ & Hflags & _). unfold emit in Hemit.
  destruct (WireFormat resp) as [buf |] eqn:Hwire; [| discriminate].
  inversion Hemit as [HD]. clear Hemit. exists buf.
  split; [reflexivity |].
  assert (Hlong : maxUDPPayload < len buf ->
    len (truncate buf) = maxUDPPayload /\ TC (truncate buf) = true /\
    exists b0 b1 b2 rest,
      firstn (Z.to_nat maxUDPPayload) buf = b0 :: b1 :: b2 :: rest /\
      truncate buf = b0 :: b1 :: byte_or b2 (byte.of_Z 0x02) :: rest).
  { intros Hlen.
    destruct (truncate_long buf Hlen) as (b0 & b1 & b2 & rest & Hfirst & Htrunc).
    assert (Hsize : length (firstn (Z.to_nat maxUDPPayload) buf)
                    = Z.to_nat maxUDPPayload).
    { apply firstn_length_le. unfold len in Hlen. lia. }
    rewrite Htrunc. split; [| split].
    - rewrite Hfirst in Hsize. unfold len. cbn [length] in *.
      rewrite Hsize. apply Z2Nat.id. discriminate.
    - unfold TC. cbn [nth_error]. apply byte_or_TC.
    - exists b0, b1, b2, rest. split; [exact Hfirst | reflexivity]. }
  split; [| split; [exact Hlong | split]].
  - destruct (Z.le_gt_cases (len buf) maxUDPPayload) as [Hle | Hgt].
    + rewrite truncate_fits; assumption.
    + apply Hlong in Hgt. lia.
  - apply truncate_fits.
  - intros Hheader (query & domain & payload & Hfor).
    apply responseFor_TC_clear in Hfor.
    split.
    + intros HTC.
      destruct (Z.le_gt_cases (len buf) maxUDPPayload) as [Hle | Hgt];
        [| exact Hgt].
      rewrite truncate_fits in HTC by assumption.
      rewrite (Hheader _ _ Hwire), Hflags, Hfor in HTC. discriminate.
    + intros Hgt. apply Hlong in Hgt. tauto.
Qed.

(** Over a whole run of [sendLoop], whatever the carry-over it starts
    from: no datagram handed to [WriteTo] is longer than 1232 bytes. *)
Lemma sendLoop_datagrams_bounded (turns : list turn)
    (nextRec : option (record Addr)) (nextP : bytes)
    (ch : list (record Addr)) :
  Forall (fun w => len (fst w) <= maxUDPPayload)
         (fst (sendLoop turns nextRec nextP ch)).
Proof.
  revert nextRec nextP ch.
  induction turns as [| t turns IH]; intros nextRec nextP ch;
    cbn [sendLoop]; [constructor |].
  destruct (match nextRec with
            | Some rec => Some (rec, ch)
            | None => match ch with
                      | rec :: ch' => Some (rec, ch')
                      | [] => None
                      end
            end) as [[rec ch'] |]; [| constructor].
  destruct (sendRecord nextP rec (outgoing t)
              (if arrival t then hd_error ch' else None))
    as [resp datagram nextP' nextRec' queue' | n] eqn:Hturn; [| constructor].
  apply sendRecord_sent in Hturn. destruct Hturn as (Hemit & _).
  destruct datagram as [buf |]; [| apply IH].
  assert (Hbuf : len buf <= maxUDPPayload).
  { unfold emit in Hemit. destruct (WireFormat resp); [| discriminate].
    inversion Hemit; subst. apply truncate_bounded. }
  destruct (written t).
  - specialize (IH nextRec' nextP'
                  match nextRec' with Some _ => tl ch' | None => ch' end).
    destruct (sendLoop turns nextRec' nextP' _). constructor; assumption.
  - specialize (IH nextRec' nextP'
                  match nextRec' with Some _ => tl ch' | None => ch' end).
    destruct (sendLoop turns nextRec' nextP' _). constructor; assumption.
  - repeat constructor. assumption.
Qed.

End SendLoopProperties.

(** *** The send path on the example record *)

Lemma sendLoop_no_panic_witness :
  (exists resp datagram nextP' nextRec queue',
     sendRecord (ext := Model.external) [] Example.pending
       [Example.packet 100; Example.packet 300] None
     = Sent resp datagram nextP' nextRec queue') /\
  Forall (fun p =>
            negb (uint16 (len p) =? len p) = false /\
            exists hi lo,
              frame p = hi :: lo :: p /\
              256 * byte.unsigned hi + byte.unsigned lo = len p)
         [Example.packet 100; Example.packet 300].
Proof.
  apply (sendLoop_no_panic (ext := Model.external) unit [] Example.pending
           [Example.packet 100; Example.packet 300] None).
  repeat constructor; vm_compute; discriminate.
Defined.

Lemma assemble_order_witness :
  assemble (Addr := unit) [Byte.x09]
    [Example.packet 500; Example.packet 600; [Byte.x07]] None
  = Bundle (frame [Byte.x09] ++ frame (Example.packet 500))
      (Example.packet 600) None [[Byte.x07]] /\
  exists taken,
    frame [Byte.x09] ++ frame (Example.packet 500)
    = concat (map frame ([[Byte.x09]] ++ taken)) /\
    fitted (maxEncodedPayload - encodedSize [[Byte.x09]]) taken /\
    ([Example.packet 500; Example.packet 600; [Byte.x07]] = taken /\
     Example.packet 600 = [] /\ @None (record unit) = None /\
     [[Byte.x07]] = [] \/
     [Example.packet 500; Example.packet 600; [Byte.x07]]
     = taken ++ Example.packet 600 :: [[Byte.x07]] /\
     @None (record unit) = None /\
     2 + len (Example.packet 600)
     > maxEncodedPayload - encodedSize [[Byte.x09]] - encodedSize taken).
Proof.
  assert (H : assemble (Addr := unit) [Byte.x09]
                [Example.packet 500; Example.packet 600; [Byte.x07]] None
              = Bundle (frame [Byte.x09] ++ frame (Example.packet 500))
                  (Example.packet 600) None [[Byte.x07]])
    by (vm_compute; reflexivity).
  split; [exact H |].
  exact (assemble_order unit _ _ _ _ _ _ _ H).
Defined.

(** [Model.WireFormat] writes the flags at offset 2. *)
Lemma Model_WireFormat_TC (m : Message) (buf : bytes) :
  Model.WireFormat m = Some buf -> TC buf = Z.testbit (Flags m) 9.
Proof.
  unfold Model.WireFormat. intros H. inversion H; subst. clear H.
  unfold TC, BigEndian_uint16. cbn [app nth_error].
  rewrite byte.unsigned_of_Z. unfold byte.wrap.
  rewrite Z.mod_pow2_bits_low by lia.
  rewrite Z.shiftr_spec by lia. reflexivity.
Qed.

Lemma sendLoop_datagram_witness :
  sendRecord (ext := Model.external) (Example.packet 1300) Example.pending
    [Example.packet 100] None
  = Sent (Example.answered (frame (Example.packet 1300)))
      (Some (truncate (Example.wire
                         (Example.answered (frame (Example.packet 1300))))))
      (Example.packet 100) None [] /\
  len (truncate (Example.wire (Example.answered (frame (Example.packet 1300)))))
  = maxUDPPayload /\
  TC (truncate (Example.wire (Example.answered (frame (Example.packet 1300)))))
  = true /\
  maxUDPPayload
  < len (Example.wire (Example.answered (frame (Example.packet 1300)))).
Proof.
  assert (H : sendRecord (ext := Model.external) (Example.packet 1300)
                Example.pending [Example.packet 100] None
              = Sent (Example.answered (frame (Example.packet 1300)))
                  (Some (truncate (Example.wire
                           (Example.answered (frame (Example.packet 1300))))))
                  (Example.packet 100) None [])
    by (vm_compute; reflexivity).
  split; [exact H |].
  destruct (sendLoop_datagram (ext := Model.external) unit _ _ _ _ _ _ _ _ _ H)
    as (buf & Hwire & _ & Hlong & _ & HTC).
  assert (Hbuf : buf = Example.wire
                         (Example.answered (frame (Example.packet 1300)))).
  { unfold Example.wire.
    change (Model.WireFormat
              (Example.answered (frame (Example.packet 1300))))
      with (WireFormat (External := Model.external)
              (Example.answered (frame (Example.packet 1300)))).
    rewrite Hwire. reflexivity. }
  subst buf.
  assert (Hlen : maxUDPPayload
                 < len (Example.wire
                          (Example.answered (frame (Example.packet 1300)))))
    by (vm_compute; reflexivity).
  split; [apply Hlong; exact Hlen |].
  split; [| exact Hlen].
  apply HTC; [exact Model_WireFormat_TC | | exact Hlen].
  exists (Example.txtQuery Example.tunnelName [Example.opt 4096 0]),
    Example.domain, Example.bundle.
  vm_compute. reflexivity.
Defined.

(** ** More on the bundle reader *)

Lemma nextPacket_padding (fill r : bytes) :
  len fill <= 31 ->
  nextPacket (byte.of_Z (224 + len fill) :: fill ++ r) = nextPacket r.
Proof.
  intros Hfill. pose proof (len_nonneg fill).
  rewrite nextPacket_cons, unsigned_of_Z_small by lia.
  destruct (Z.leb_spec 224 (224 + len fill)); [| lia].
  replace (224 + len fill - 224) with (len fill) by lia.
  rewrite CopyN_Discard_enough. reflexivity.
Qed.

Lemma recvPackets_padding (fill r : bytes) :
  len fill <= 31 ->
  recvPackets (byte.of_Z (224 + len fill) :: fill ++ r) = recvPackets r.
Proof.
  intros Hfill.
  rewrite recvPackets_step, nextPacket_padding by assumption.
  symmetry. apply recvPackets_step.
Qed.

Lemma recvPackets_chunk (c : chunk) (r : bytes) :
  chunkFits c ->
  recvPackets (chunkBytes c ++ r)
  = (packetsOf [c] ++ fst (recvPackets r), snd (recvPackets r)).
Proof.
  destruct c as [p | fill]; cbn [chunkFits chunkBytes packetsOf flat_map app];
    intros Hfits.
  - apply recvPackets_packet. assumption.
  - rewrite recvPackets_padding by assumption.
    destruct (recvPackets r). reflexivity.
Qed.

Lemma recvPackets_chunks_app (cs : list chunk) (r : bytes) :
  Forall chunkFits cs ->
  recvPackets (chunksBytes cs ++ r)
  = (packetsOf cs ++ fst (recvPackets r), snd (recvPackets r)).
Proof.
  unfold chunksBytes.
  induction 1 as [| c cs Hc _ IH]; cbn [map concat].
  - cbn [app packetsOf flat_map]. destruct (recvPackets r). reflexivity.
  - rewrite <- app_assoc, recvPackets_chunk by assumption.
    rewrite IH. cbn [fst snd]. rewrite app_assoc. f_equal. f_equal.
    destruct c; reflexivity.
Qed.

(** What one prefix byte leads to: padding skipped, a packet returned, or
    a truncated bundle. *)
Lemma nextPacket_cases (n : byte) (r1 : bytes) :
  (224 <= byte.unsigned n /\
   exists fill rest,
     r1 = fill ++ rest /\ len fill = byte.unsigned n - 224 /\
     nextPacket (n :: r1) = nextPacket rest /\
     recvPackets (n :: r1) = recvPackets rest) \/
  (byte.unsigned n < 224 /\
   exists p rest,
     r1 = p ++ rest /\ len p = byte.unsigned n /\
     nextPacket (n :: r1) = ((p, None), rest) /\
     recvPackets (n :: r1)
     = (p :: fst (recvPackets rest), snd (recvPackets rest))) \/
  ((byte.unsigned n < 224 /\ len r1 < byte.unsigned n \/
    224 <= byte.unsigned n /\ len r1 < byte.unsigned n - 224) /\
   (exists p, nextPacket (n :: r1) = ((p, Some ErrUnexpectedEOF), [])) /\
   recvPackets (n :: r1) = ([], ErrUnexpectedEOF)).
Proof.
  pose proof (byte.unsigned_range n) as Hn.
  assert (Hsplit : forall k, 0 <= k <= len r1 ->
            exists a b, r1 = a ++ b /\ len a = k).
  { intros k Hk. exists (firstn (Z.to_nat k) r1), (skipn (Z.to_nat k) r1).
    split; [symmetry; apply firstn_skipn |].
    unfold len in *. rewrite length_firstn. lia. }
  destruct (Z.leb_spec 224 (byte.unsigned n)) as [Hpad | Hpkt].
  - destruct (Z.le_gt_cases (byte.unsigned n - 224) (len r1)) as [Hok | Hshort].
    + left. split; [assumption |].
      destruct (Hsplit (byte.unsigned n - 224)) as (fill & rest & -> & Hfill);
        [lia |].
      exists fill, rest.
      assert (Hnext : nextPacket (n :: fill ++ rest) = nextPacket rest).
      { rewrite nextPacket_cons.
        destruct (Z.leb_spec 224 (byte.unsigned n)); [| lia].
        rewrite <- Hfill, CopyN_Discard_enough. reflexivity. }
      repeat split; try assumption.
      rewrite recvPackets_step, Hnext. symmetry. apply recvPackets_step.
    + right. right. split; [right; lia |].
      assert (Hnext : nextPacket (n :: r1) = (([], Some ErrUnexpectedEOF), [])).
      { rewrite nextPacket_cons.
        destruct (Z.leb_spec 224 (byte.unsigned n)); [| lia].
        rewrite CopyN_Discard_short by lia. reflexivity. }
      split; [exists []; exact Hnext |].
      rewrite recvPackets_step, Hnext. reflexivity.
  - destruct (Z.le_gt_cases (byte.unsigned n) (len r1)) as [Hok | Hshort].
    + right. left. split; [assumption |].
      destruct (Hsplit (byte.unsigned n)) as (p & rest & -> & Hp); [lia |].
      exists p, rest.
      assert (Hnext : nextPacket (n :: p ++ rest) = ((p, None), rest)).
      { rewrite nextPacket_cons.
        destruct (Z.leb_spec 224 (byte.unsigned n)); [lia |].
        rewrite <- Hp, ReadFull_enough. reflexivity. }
      repeat split; try assumption.
      rewrite recvPackets_step, Hnext. reflexivity.
    + right. right. split; [left; lia |].
      destruct (ReadFull_short r1 (byte.unsigned n) Hshort)
        as (p & err & Hread & Herr).
      assert (Hnext : nextPacket (n :: r1) = ((p, Some ErrUnexpectedEOF), [])).
      { rewrite nextPacket_cons.
        destruct (Z.leb_spec 224 (byte.unsigned n)); [lia |].
        rewrite Hread. simpl. rewrite Herr. reflexivity. }
      split; [exists p; exact Hnext |].
      rewrite recvPackets_step, Hnext. reflexivity.
Qed.

Lemma chunkBytes_Pad (n : byte) (fill : bytes) :
  len fill = byte.unsigned n - 224 -> chunkBytes (Pad fill) = n :: fill.
Proof.
  intros H. cbn [chunkBytes].
  replace (224 + len fill) with (byte.unsigned n) by lia.
  rewrite byte.of_Z_unsigned. reflexivity.
Qed.

Lemma chunkBytes_Packet (n : byte) (p : bytes) :
  len p = byte.unsigned n -> chunkBytes (Packet p) = n :: p.
Proof.
  intros H. cbn [chunkBytes]. rewrite H, byte.of_Z_unsigned. reflexivity.
Qed.

(** X1. The inner loop of [recvLoop] reads a bundle piece by piece: after
    packets and blocks of padding that fit their prefixes, it delivers the
    packets of those pieces, in order, and goes on with the rest of the
    reader; when nothing follows it ends on [io.EOF]. *)
Theorem recvPackets_padded_bundle (cs : list chunk) (r : bytes) :
  Forall chunkFits cs ->
  recvPackets (NewReader (chunksBytes cs ++ r))
  = (packetsOf cs ++ fst (recvPackets r), snd (recvPackets r)) /\
  recvPackets (NewReader (chunksBytes cs)) = (packetsOf cs, EOF).
Proof.
  intros Hcs. unfold NewReader. split.
  - apply recvPackets_chunks_app. assumption.
  - rewrite <- (app_nil_r (chunksBytes cs)).
    rewrite recvPackets_chunks_app by assumption.
    change (recvPackets []) with (recvPackets (NewReader [])).
    rewrite recvPackets_nil. cbn [fst snd]. rewrite app_nil_r. reflexivity.
Qed.

(** X2. A bundle cut short inside a packet or inside a block of padding:
    the packets before the cut are delivered all the same, and the loop
    ends on [io.ErrUnexpectedEOF]. *)
Theorem recvPackets_truncated (cs : list chunk) (n : byte) (short : bytes) :
  Forall chunkFits cs ->
  (byte.unsigned n < 224 /\ len short < byte.unsigned n \/
   224 <= byte.unsigned n /\ len short < byte.unsigned n - 224) ->
  recvPackets (NewReader (chunksBytes cs ++ n :: short))
  = (packetsOf cs, ErrUnexpectedEOF).
Proof.
  intros Hcs Hshort. unfold NewReader.
  rewrite recvPackets_chunks_app by assumption.
  destruct (nextPacket_cases n short)
    as [(? & fill & rest & -> & Hfill & _) | [(? & p & rest & -> & Hp & _)
       | (_ & _ & ->)]].
  - rewrite len_app in Hshort. pose proof (len_nonneg rest). lia.
  - rewrite len_app in Hshort. pose proof (len_nonneg rest). lia.
  - cbn [fst snd]. rewrite app_nil_r. reflexivity.
Qed.

(** X3. The loop ends on [io.EOF] exactly when the payload is made of
    packets and blocks of padding that fit their prefixes, and then the
    packets delivered are those of the pieces. *)
Theorem recvPackets_clean_iff (r : bytes) :
  snd (recvPackets (NewReader r)) = EOF <->
  exists cs,
    Forall chunkFits cs /\ r = chunksBytes cs /\
    fst (recvPackets (NewReader r)) = packetsOf cs.
Proof.
  unfold NewReader. split.
  - remember (length r) as k eqn:Hk. revert r Hk.
    induction k as [k IH] using lt_wf_ind. intros [| n r1] Hk Hend.
    + exists []. split; [constructor | split; [reflexivity |]].
      change (recvPackets []) with (recvPackets (NewReader [])).
      rewrite recvPackets_nil. reflexivity.
    + pose proof (byte.unsigned_range n) as Hn.
      destruct (nextPacket_cases n r1)
        as [(Hpad & fill & rest & -> & Hfill & _ & Hrecv)
           | [(Hpkt & p & rest & -> & Hp & _ & Hrecv)
           | (_ & _ & Hrecv)]];
        rewrite Hrecv in Hend |- *; cbn [fst snd] in Hend |- *.
      * assert (Hlt : (length rest < k)%nat)
          by (subst k; cbn [length]; rewrite length_app; lia).
        destruct (IH _ Hlt rest eq_refl Hend) as (cs & Hcs & -> & Hpackets).
        exists (Pad fill :: cs). split; [| split].
        -- constructor; [cbn [chunkFits]; lia | assumption].
        -- unfold chunksBytes. cbn [map concat].
           rewrite (chunkBytes_Pad n) by assumption. reflexivity.
        -- rewrite Hpackets. reflexivity.
      * assert (Hlt : (length rest < k)%nat)
          by (subst k; cbn [length]; rewrite length_app; lia).
        destruct (IH _ Hlt rest eq_refl Hend) as (cs & Hcs & -> & Hpackets).
        exists (Packet p :: cs). split; [| split].
        -- constructor; [cbn [chunkFits]; lia | assumption].
        -- unfold chunksBytes. cbn [map concat].
           rewrite (chunkBytes_Packet n) by assumption. reflexivity.
        -- rewrite Hpackets. reflexivity.
      * discriminate.
  - intros (cs & Hcs & -> & _).
    rewrite <- (app_nil_r (chunksBytes cs)).
    rewrite recvPackets_chunks_app by assumption.
    change (recvPackets []) with (recvPackets (NewReader [])).
    rewrite recvPackets_nil. reflexivity.
Qed.

(** X4. Whatever the payload, every packet that the loop delivers is at
    most 223 bytes long, and the packets with their length bytes take no
    more room than the payload had. *)
Theorem recvPackets_bounded (r : bytes) :
  Forall (fun p => len p <= 223) (fst (recvPackets (NewReader r))) /\
  len (upstreamBundle (fst (recvPackets (NewReader r)))) <= len r.
Proof.
  unfold NewReader.
  remember (length r) as k eqn:Hk. revert r Hk.
  induction k as [k IH] using lt_wf_ind. intros [| n r1] Hk.
  - change (recvPackets []) with (recvPackets (NewReader [])).
    rewrite recvPackets_nil. split; [constructor | reflexivity].
  - destruct (nextPacket_cases n r1)
      as [(Hpad & fill & rest & -> & Hfill & _ & ->)
         | [(Hpkt & p & rest & -> & Hp & _ & ->)
         | (_ & _ & ->)]]; cbn [fst snd].
    + assert (Hlt : (length rest < k)%nat)
        by (subst k; cbn [length]; rewrite length_app; lia).
      destruct (IH _ Hlt rest eq_refl) as (Hall & Hsize).
      split; [assumption |].
      unfold len in *. cbn [length]. rewrite length_app. lia.
    + assert (Hlt : (length rest < k)%nat)
        by (subst k; cbn [length]; rewrite length_app; lia).
      destruct (IH _ Hlt rest eq_refl) as (Hall & Hsize).
      split; [constructor; [lia | assumption] |].
      unfold upstreamBundle in *. cbn [map concat app].
      unfold len in *. cbn [length]. rewrite !length_app. lia.
    + split; [constructor |]. unfold upstreamBundle, len. cbn. lia.
Qed.

Lemma nextPacket_packet (p r' : bytes) :
  len p <= 223 ->
  nextPacket (chunkBytes (Packet p) ++ r') = ((p, None), r').
Proof.
  intros Hp. pose proof (len_nonneg p). cbn [chunkBytes app].
  rewrite nextPacket_cons, unsigned_of_Z_small by lia.
  destruct (Z.leb_spec 224 (len p)); [lia |].
  rewrite ReadFull_enough. reflexivity.
Qed.

(** X5. [nextPacket] returns the packet [p] and leaves the reader at [r']
    exactly when the reader held blocks of padding that fit their
    prefixes, then the length of [p] as one byte, at most 223, then [p],
    then [r']. *)
Theorem nextPacket_returns_iff (r p r' : bytes) :
  nextPacket r = ((p, None), r') <->
  exists pads,
    Forall (fun fill => len fill <= 31) pads /\ len p <= 223 /\
    r = chunksBytes (map Pad pads) ++ chunkBytes (Packet p) ++ r'.
Proof.
  split.
  - remember (length r) as k eqn:Hk. revert r Hk.
    induction k as [k IH] using lt_wf_ind. intros [| n r1] Hk Hnext.
    + rewrite nextPacket_nil in Hnext. discriminate.
    + destruct (nextPacket_cases n r1)
        as [(Hpad & fill & rest & -> & Hfill & Hskip & _)
           | [(Hpkt & p0 & rest & -> & Hp & Hret & _)
           | (_ & (p0 & Hret) & _)]].
      * rewrite Hskip in Hnext.
        assert (Hlt : (length rest < k)%nat)
          by (subst k; cbn [length]; rewrite length_app; lia).
        destruct (IH _ Hlt rest eq_refl Hnext) as (pads & Hpads & Hlen & ->).
        pose proof (byte.unsigned_range n).
        exists (fill :: pads). split; [constructor; [lia | assumption] |].
        split; [assumption |].
        unfold chunksBytes. cbn [map concat].
        rewrite (chunkBytes_Pad n) by assumption.
        cbn [app]. rewrite <- app_assoc. reflexivity.
      * rewrite Hret in Hnext. inversion Hnext; subst.
        exists []. split; [constructor |]. split; [lia |].
        cbn [map chunksBytes concat app].
        rewrite (chunkBytes_Packet n) by assumption. reflexivity.
      * rewrite Hret in Hnext. discriminate.
  - intros (pads & Hpads & Hp & ->). unfold chunksBytes.
    induction Hpads as [| fill pads Hfill _ IH]; cbn [map concat app].
    + apply nextPacket_packet. assumption.
    + rewrite <- app_assoc. cbn [chunkBytes app].
      rewrite nextPacket_padding by assumption. exact IH.
Qed.

(** *** The bundle reader on example bundles *)

Lemma recvPackets_padded_bundle_witness :
  recvPackets
    (NewReader (chunksBytes [Pad [Byte.x00; Byte.x00]; Packet [Byte.x68; Byte.x69];
                             Packet []; Pad []; Packet [Byte.x21]]
                ++ [Byte.x01]))
  = ([[Byte.x68; Byte.x69]; []; [Byte.x21]], ErrUnexpectedEOF) /\
  recvPackets
    (NewReader (chunksBytes [Pad [Byte.x00; Byte.x00]; Packet [Byte.x68; Byte.x69];
                             Packet []; Pad []; Packet [Byte.x21]]))
  = ([[Byte.x68; Byte.x69]; []; [Byte.x21]], EOF).
Proof.
  assert (Hfits : Forall chunkFits
                    [Pad [Byte.x00; Byte.x00]; Packet [Byte.x68; Byte.x69];
                     Packet []; Pad []; Packet [Byte.x21]])
    by (repeat constructor; vm_compute; discriminate).
  destruct (recvPackets_padded_bundle _ [Byte.x01] Hfits) as [Hrest Hend].
  split; [| exact Hend].
  rewrite Hrest. vm_compute. reflexivity.
Defined.

Lemma recvPackets_truncated_witness :
  recvPackets
    (NewReader (chunksBytes [Packet [Byte.x68; Byte.x69]; Pad [Byte.x00]]
                ++ [Byte.xe3; Byte.x00]))
  = ([[Byte.x68; Byte.x69]], ErrUnexpectedEOF).
Proof.
  apply (recvPackets_truncated
           [Packet [Byte.x68; Byte.x69]; Pad [Byte.x00]] Byte.xe3 [Byte.x00]).
  - repeat constructor; vm_compute; discriminate.
  - right. split; [vm_compute; discriminate | vm_compute; reflexivity].
Defined.

(** ** More on the DNS state machine *)

Section ResponseForTable.

Context {ext : External}.

Lemma ednsAccepted_skeleton (query : Message) :
  ednsAccepted query ->
  ednsLoop (Additional query)
    (mkMessage (ID query) 0x8000 (Questions query) [] []) 0
  = inr (skeleton query, requestedPayloadSize (Additional query)).
Proof.
  intros Hacc. unfold skeleton, requestedPayloadSize.
  rewrite ednsLoop_cases, existsb_isOPT_filter by reflexivity.
  destruct Hacc as [-> | (o & -> & ->)]; reflexivity.
Qed.

Lemma ednsAccepted_dec (query : Message) :
  ednsAccepted query \/
  exists o more,
    filter isOPT (Additional query) = o :: more /\
    (ednsVersion o <> 0 \/ ednsVersion o = 0 /\ more <> []).
Proof.
  unfold ednsAccepted.
  destruct (filter isOPT (Additional query)) as [| o more]; [left; left; reflexivity |].
  destruct (Z.eq_dec (ednsVersion o) 0) as [Hv | Hv].
  - destruct more as [| o2 more].
    + left. right. exists o. split; [reflexivity | assumption].
    + right. exists o, (o2 :: more). split; [reflexivity |].
      right. split; [assumption | discriminate].
  - right. exists o, more. split; [reflexivity | left; assumption].
Qed.

Lemma copyClientID_full (payload : bytes) :
  clientIDLen <= len payload ->
  copyClientID zeroClientID payload
  = (firstn (Z.to_nat clientIDLen) payload, clientIDLen) /\
  len (firstn (Z.to_nat clientIDLen) payload) = clientIDLen.
Proof.
  intros H. unfold copyClientID.
  change (len zeroClientID) with clientIDLen.
  rewrite Z.min_l by assumption.
  change (skipn (Z.to_nat clientIDLen) zeroClientID) with (@nil byte).
  rewrite app_nil_r. split; [reflexivity |].
  unfold len in *. rewrite length_firstn. unfold clientIDLen in *. lia.
Qed.

(** [responseFor] on a query (QR = 0) with a single question that the
    EDNS loop lets through: the checks that follow, in their order. *)
Lemma responseFor_single_question (query : Message) (domain : Name)
    (question : Question) :
  Z.land (Flags query) 0x8000 = 0 ->
  ednsAccepted query ->
  Questions query = [question] ->
  responseFor query domain =
  let '(prefix, ok) := TrimSuffix (QName question) domain in
  if ok then
    if negb (Z.land (Flags query) 0x7800 =? 0) then
      (Some (set_Flags (skeleton query) 0x8404), zeroClientID, [])
    else if negb (QType question =? RRTypeTXT) then
      (Some (set_Flags (skeleton query) 0x8403), zeroClientID, [])
    else
      match base32Decode (ToUpper (concat prefix)) with
      | None => (Some (set_Flags (skeleton query) 0x8403), zeroClientID, [])
      | Some payload =>
          let '(clientID, n) := copyClientID zeroClientID payload in
          if n <? len clientID then
            (Some (set_Flags (skeleton query) 0x8403), clientID, [])
          else if advertisedPayloadSize (Additional query) <? maxUDPPayload then
            (Some (set_Flags (skeleton query) 0x8401), clientID, [])
          else
            (Some (set_Flags (skeleton query) 0x8400), clientID,
             skipn (Z.to_nat (len clientID)) payload)
      end
  else (Some (set_Flags (skeleton query) 0x8003), zeroClientID, []).
Proof.
  intros HQR Hacc Hq. unfold responseFor.
  rewrite HQR, (ednsAccepted_skeleton query Hacc), Hq. cbv zeta.
  change (if requestedPayloadSize (Additional query) <? 512 then 512
          else requestedPayloadSize (Additional query))
    with (advertisedPayloadSize (Additional query)).
  destruct (TrimSuffix (QName question) domain) as [prefix [|]];
    reflexivity.
Qed.

Lemma single_question (questions : list Question) :
  len questions = 1 -> exists question, questions = [question].
Proof.
  destruct questions as [| question [| ? ?]]; unfold len; cbn [length];
    intros H; try lia.
  exists question. reflexivity.
Qed.

Lemma responseFor_not_query (query : Message) (domain : Name) :
  Z.land (Flags query) 0x8000 <> 0 ->
  responseFor query domain = (None, zeroClientID, []).
Proof.
  intros HQR. unfold responseFor.
  apply Z.eqb_neq in HQR. rewrite HQR. reflexivity.
Qed.

(** What the EDNS loop makes [responseFor] return when it does not let a
    query through. *)
Lemma responseFor_rejected (query : Message) (domain : Name) (o : RR)
    (more : list RR) :
  Z.land (Flags query) 0x8000 = 0 ->
  filter isOPT (Additional query) = o :: more ->
  (ednsVersion o <> 0 ->
   responseFor query domain
   = (Some (mkMessage (ID query) 0x8000 (Questions query) []
              [set_RRTTL responseOPT 0x01000000]),
      zeroClientID, [])) /\
  (ednsVersion o = 0 -> more <> [] ->
   responseFor query domain
   = (Some (mkMessage (ID query) 0x8001 (Questions query) [] [responseOPT]),
      zeroClientID, [])).
Proof.
  intros HQR Hopt. unfold responseFor.
  rewrite HQR, ednsLoop_cases, Hopt by reflexivity. cbn [Z.eqb negb].
  split.
  - intros Hv. apply Z.eqb_neq in Hv. rewrite Hv. reflexivity.
  - intros Hv Hmore. rewrite Hv. destruct more; [contradiction | reflexivity].
Qed.

(** X6. [responseFor] returns no response exactly for the messages with
    QR = 1, and then neither a ClientID nor a payload; every message with
    QR = 0 gets a response. *)
Theorem responseFor_silent_iff (query : Message) (domain : Name) :
  (Z.land (Flags query) 0x8000 <> 0 ->
   responseFor query domain = (None, zeroClientID, [])) /\
  (Z.land (Flags query) 0x8000 = 0 ->
   exists resp clientID payload,
     responseFor query domain = (Some resp, clientID, payload)).
Proof.
  split; intros HQR; [apply responseFor_not_query; assumption |].
  unfold responseFor. rewrite HQR. cbn [Z.eqb negb].
  responseFor_paths; eexists _, _, _; reflexivity.
Qed.

(** X7. The flags of a response of [responseFor] are one of seven values:
    QR is set, the OPCODE, TC, RD, RA and Z bits are clear, the RCODE is
    NOERROR, FORMERR, NXDOMAIN or NOTIMPL, and NOTIMPL only comes with
    AA = 1. *)
Theorem responseFor_flags (query : Message) (domain : Name)
    (resp : Message) (clientID : ClientID) (payload : bytes) :
  responseFor query domain = (Some resp, clientID, payload) ->
  In (Flags resp) [0x8000; 0x8001; 0x8003; 0x8400; 0x8401; 0x8403; 0x8404].
Proof.
  unfold responseFor. rewrite ednsLoop_cases by reflexivity.
  responseFor_paths; intros H; try discriminate; returned; cbn; auto 10.
Qed.

Lemma responseFor_valid (query : Message) (domain : Name)
    (question : Question) (prefix : Name) (decoded : bytes) :
  Z.land (Flags query) 0x8000 = 0 ->
  Z.land (Flags query) 0x7800 = 0 ->
  ednsAccepted query ->
  maxUDPPayload <= advertisedPayloadSize (Additional query) ->
  Questions query = [question] ->
  QType question = RRTypeTXT ->
  TrimSuffix (QName question) domain = (prefix, true) ->
  base32Decode (ToUpper (concat prefix)) = Some decoded ->
  clientIDLen <= len decoded ->
  responseFor query domain
  = (Some (set_Flags (skeleton query) 0x8400),
     firstn (Z.to_nat clientIDLen) decoded,
     skipn (Z.to_nat clientIDLen) decoded).
Proof.
  intros HQR Hopcode Hacc Hsize Hq Htype Htrim Hdecode Hlen.
  rewrite (responseFor_single_question query domain question HQR Hacc Hq).
  destruct (copyClientID_full decoded Hlen) as [Hcopy Hcid].
  rewrite Htrim, Hopcode, Htype, Z.eqb_refl, Hdecode. cbn [negb Z.eqb].
  rewrite Hcopy, Hcid, Z.ltb_irrefl.
  destruct (Z.ltb_spec (advertisedPayloadSize (Additional query)) maxUDPPayload);
    [lia | reflexivity].
Qed.

(** X8. A query that passes every check: QR = 0, OPCODE = QUERY, no OPT
    RR problem, an advertised payload size of at least 1232, a single TXT
    question under the domain whose labels decode to at least 8 bytes.
    [responseFor] answers NOERROR with AA = 1, takes the first 8 decoded
    bytes as the ClientID and returns the bytes after them as payload. *)
Theorem responseFor_success (query : Message) (domain : Name)
    (question : Question) (prefix : Name) (decoded : bytes) :
  Z.land (Flags query) 0x8000 = 0 ->
  Z.land (Flags query) 0x7800 = 0 ->
  ednsAccepted query ->
  maxUDPPayload <= advertisedPayloadSize (Additional query) ->
  Questions query = [question] ->
  QType question = RRTypeTXT ->
  TrimSuffix (QName question) domain = (prefix, true) ->
  base32Decode (ToUpper (concat prefix)) = Some decoded ->
  clientIDLen <= len decoded ->
  responseFor query domain
  = (Some (set_Flags (skeleton query) 0x8400),
     firstn (Z.to_nat clientIDLen) decoded,
     skipn (Z.to_nat clientIDLen) decoded) /\
  Rcode (set_Flags (skeleton query) 0x8400) = RcodeNoError /\
  AA (set_Flags (skeleton query) 0x8400) = true /\
  firstn (Z.to_nat clientIDLen) decoded ++ skipn (Z.to_nat clientIDLen) decoded
  = decoded.
Proof.
  intros. split; [apply (responseFor_valid _ _ question prefix); assumption |].
  split; [reflexivity |]. split; [reflexivity | apply firstn_skipn].
Qed.

(** A payload that is not empty comes from a query that passed every
    check. *)
Lemma responseFor_payload_inv (query : Message) (domain : Name)
    (resp : option Message) (clientID : ClientID) (payload : bytes) :
  responseFor query domain = (resp, clientID, payload) ->
  payload <> [] ->
  exists question prefix decoded,
    resp = Some (set_Flags (skeleton query) 0x8400) /\
    Z.land (Flags query) 0x8000 = 0 /\
    Z.land (Flags query) 0x7800 = 0 /\
    ednsAccepted query /\
    maxUDPPayload <= advertisedPayloadSize (Additional query) /\
    Questions query = [question] /\
    QType question = RRTypeTXT /\
    TrimSuffix (QName question) domain = (prefix, true) /\
    base32Decode (ToUpper (concat prefix)) = Some decoded /\
    clientIDLen <= len decoded /\
    clientID = firstn (Z.to_nat clientIDLen) decoded /\
    payload = skipn (Z.to_nat clientIDLen) decoded.
Proof.
  intros Hfor Hpayload.
  destruct (Z.eq_dec (Z.land (Flags query) 0x8000) 0) as [HQR | HQR].
  2: { rewrite (responseFor_not_query query domain HQR) in Hfor.
       inversion Hfor; subst. contradiction. }
  destruct (ednsAccepted_dec query) as [Hacc | (o & more & Hopt & Hbad)].
  2: { exfalso.
       destruct (responseFor_rejected query domain o more HQR Hopt)
         as [Hbadvers Hformerr].
       destruct Hbad as [Hv | [Hv Hmore]].
       - rewrite (Hbadvers Hv) in Hfor. inversion Hfor; subst. contradiction.
       - rewrite (Hformerr Hv Hmore) in Hfor. inversion Hfor; subst.
         contradiction. }
  destruct (Z.eq_dec (len (Questions query)) 1) as [Hone | Hmany].
  2: { exfalso. revert Hfor. unfold responseFor.
       rewrite HQR, (ednsAccepted_skeleton query Hacc). cbn [Z.eqb negb].
       apply Z.eqb_neq in Hmany. rewrite Hmany. cbn [negb].
       intros H; inversion H; subst. contradiction. }
  destruct (single_question _ Hone) as [question Hq].
  rewrite (responseFor_single_question query domain question HQR Hacc Hq)
    in Hfor.
  destruct (TrimSuffix (QName question) domain) as [prefix [|]] eqn:Htrim;
    [| inversion Hfor; subst; contradiction].
  destruct (Z.eqb_spec (Z.land (Flags query) 0x7800) 0) as [Hopcode | _];
    cbn [negb] in Hfor; [| inversion Hfor; subst; contradiction].
  destruct (Z.eqb_spec (QType question) RRTypeTXT) as [Htype | _];
    cbn [negb] in Hfor; [| inversion Hfor; subst; contradiction].
  destruct (base32Decode (ToUpper (concat prefix))) as [decoded |] eqn:Hdecode;
    [| inversion Hfor; subst; contradiction].
  destruct (Z.lt_ge_cases (len decoded) clientIDLen) as [Hshort | Hlen].
  { destruct (copyClientID_short decoded Hshort) as (cid & n & Hcopy & Hn).
    rewrite Hcopy in Hfor. apply Z.ltb_lt in Hn. rewrite Hn in Hfor.
    inversion Hfor; subst; contradiction. }
  destruct (copyClientID_full decoded Hlen) as [Hcopy Hcid].
  rewrite Hcopy, Hcid, Z.ltb_irrefl in Hfor.
  destruct (Z.ltb_spec (advertisedPayloadSize (Additional query)) maxUDPPayload)
    as [Hsmall | Hsize]; [inversion Hfor; subst; contradiction |].
  inversion Hfor; subst.
  exists question, prefix, decoded. repeat split; assumption || reflexivity.
Qed.

Lemma responseFor_question_count (query : Message) (domain : Name) :
  Z.land (Flags query) 0x8000 = 0 ->
  ednsAccepted query ->
  len (Questions query) <> 1 ->
  responseFor query domain
  = (Some (set_Flags (skeleton query) 0x8001), zeroClientID, []).
Proof.
  intros HQR Hacc Hmany. unfold responseFor.
  rewrite HQR, (ednsAccepted_skeleton query Hacc). cbn [Z.eqb negb].
  apply Z.eqb_neq in Hmany. rewrite Hmany. reflexivity.
Qed.

(** X10. A response of [responseFor] has AA = 1 exactly when the EDNS
    loop let the query through and the query has a single question whose
    name is under the domain. *)
Theorem responseFor_AA_iff (query : Message) (domain : Name)
    (resp : Message) (clientID : ClientID) (payload : bytes) :
  responseFor query domain = (Some resp, clientID, payload) ->
  (AA resp = true <->
   ednsAccepted query /\
   exists question prefix,
     Questions query = [question] /\
     TrimSuffix (QName question) domain = (prefix, true)).
Proof.
  intros Hfor.
  destruct (Z.eq_dec (Z.land (Flags query) 0x8000) 0) as [HQR | HQR].
  2: { rewrite (responseFor_not_query query domain HQR) in Hfor.
       discriminate. }
  destruct (ednsAccepted_dec query) as [Hacc | (o & more & Hopt & Hbad)].
  2: { assert (Hno : ~ ednsAccepted query).
       { intros [Hnil | (o' & Hone & Hv)]; rewrite Hopt in *;
           [discriminate |].
         inversion Hone; subst. destruct Hbad as [? | [_ ?]]; congruence. }
       destruct (responseFor_rejected query domain o more HQR Hopt)
         as [Hbadvers Hformerr].
       split; [| tauto].
       destruct Hbad as [Hv | [Hv Hmore]].
       - rewrite (Hbadvers Hv) in Hfor. inversion Hfor; subst. discriminate.
       - rewrite (Hformerr Hv Hmore) in Hfor. inversion Hfor; subst.
         discriminate. }
  destruct (Z.eq_dec (len (Questions query)) 1) as [Hone | Hmany].
  2: { rewrite (responseFor_question_count query domain HQR Hacc Hmany)
         in Hfor.
       inversion Hfor; subst. split; [discriminate |].
       intros (_ & question & prefix & Hq & _). rewrite Hq in Hmany.
       contradiction Hmany. reflexivity. }
  destruct (single_question _ Hone) as [question Hq].
  rewrite (responseFor_single_question query domain question HQR Hacc Hq)
    in Hfor.
  destruct (TrimSuffix (QName question) domain) as [prefix [|]] eqn:Htrim.
  - split.
    + intros _. split; [assumption |]. exists question, prefix. auto.
    + intros _. revert Hfor.
      responseFor_paths; intros H; inversion H; subst; reflexivity.
  - inversion Hfor; subst. split; [discriminate |].
    intros (_ & question' & prefix' & Hq' & Htrim').
    rewrite Hq in Hq'. inversion Hq'; subst. rewrite Htrim in Htrim'.
    discriminate.
Qed.

(** X11. A query whose first OPT RR has an EDNS version other than 0 is
    answered with BADVERS, whatever else it holds: the RCODE bits of the
    flags are 0, the response's OPT RR carries the high bits in its TTL,
    the two together are the extended RCODE 16, and the payload is
    empty. *)
Theorem responseFor_BADVERS (query : Message) (domain : Name) (o : RR)
    (more : list RR) :
  Z.land (Flags query) 0x8000 = 0 ->
  filter isOPT (Additional query) = o :: more ->
  ednsVersion o <> 0 ->
  responseFor query domain
  = (Some (mkMessage (ID query) 0x8000 (Questions query) []
             [set_RRTTL responseOPT 0x01000000]),
     zeroClientID, []) /\
  extendedRcode
    (mkMessage (ID query) 0x8000 (Questions query) []
       [set_RRTTL responseOPT 0x01000000])
    (set_RRTTL responseOPT 0x01000000)
  = ExtendedRcodeBadVers.
Proof.
  intros HQR Hopt Hv. split; [| reflexivity].
  apply (responseFor_rejected query domain o more HQR Hopt). assumption.
Qed.

(** X12. A query with an OPCODE other than QUERY for a single question
    under the domain is answered with NOTIMPL and AA = 1, whatever the
    type of the question and the labels before the domain, and its
    payload is empty. *)
Theorem responseFor_NOTIMPL (query : Message) (domain : Name)
    (question : Question) (prefix : Name) :
  Z.land (Flags query) 0x8000 = 0 ->
  ednsAccepted query ->
  Questions query = [question] ->
  TrimSuffix (QName question) domain = (prefix, true) ->
  Z.land (Flags query) 0x7800 <> 0 ->
  responseFor query domain
  = (Some (set_Flags (skeleton query) 0x8404), zeroClientID, []) /\
  Rcode (set_Flags (skeleton query) 0x8404) = RcodeNotImplemented /\
  AA (set_Flags (skeleton query) 0x8404) = true.
Proof.
  intros HQR Hacc Hq Htrim Hopcode.
  split; [| split; reflexivity].
  rewrite (responseFor_single_question query domain question HQR Hacc Hq).
  apply Z.eqb_neq in Hopcode. rewrite Htrim, Hopcode. reflexivity.
Qed.

(** X13. A query that the EDNS loop lets through and that does not hold
    exactly one question (none, or two or more) is answered with FORMERR
    and AA = 0, and its payload is empty. *)
Theorem responseFor_question_count_FORMERR (query : Message) (domain : Name) :
  Z.land (Flags query) 0x8000 = 0 ->
  ednsAccepted query ->
  len (Questions query) <> 1 ->
  responseFor query domain
  = (Some (set_Flags (skeleton query) 0x8001), zeroClientID, []) /\
  Rcode (set_Flags (skeleton query) 0x8001) = RcodeFormatError /\
  AA (set_Flags (skeleton query) 0x8001) = false.
Proof.
  intros HQR Hacc Hmany. split; [| split; reflexivity].
  apply responseFor_question_count; assumption.
Qed.

(** X14. A query (OPCODE = QUERY) for a single question under the domain
    that fails a later check on the name (the type is not TXT, the labels
    are not base32, or they decode to fewer than 8 bytes) is answered
    with NXDOMAIN and AA = 1, whatever payload size it advertises, and
    its payload is empty. *)
Theorem responseFor_NXDOMAIN_under_domain (query : Message) (domain : Name)
    (question : Question) (prefix : Name) :
  Z.land (Flags query) 0x8000 = 0 ->
  Z.land (Flags query) 0x7800 = 0 ->
  ednsAccepted query ->
  Questions query = [question] ->
  TrimSuffix (QName question) domain = (prefix, true) ->
  ~ nameAccepted question domain ->
  exists clientID,
    responseFor query domain
    = (Some (set_Flags (skeleton query) 0x8403), clientID, []) /\
    Rcode (set_Flags (skeleton query) 0x8403) = RcodeNameError /\
    AA (set_Flags (skeleton query) 0x8403) = true.
Proof.
  intros HQR Hopcode Hacc Hq Htrim Hname.
  rewrite (responseFor_single_question query domain question HQR Hacc Hq).
  rewrite Htrim, Hopcode. cbn [Z.eqb negb].
  destruct (Z.eqb_spec (QType question) RRTypeTXT) as [Htype | _];
    cbn [negb]; [| eexists; repeat split].
  destruct (base32Decode (ToUpper (concat prefix))) as [decoded |] eqn:Hdecode;
    [| eexists; repeat split].
  destruct (Z.lt_ge_cases (len decoded) clientIDLen) as [Hshort | Hlen].
  - destruct (copyClientID_short decoded Hshort) as (cid & n & -> & Hn).
    apply Z.ltb_lt in Hn. rewrite Hn. eexists; repeat split.
  - exfalso. apply Hname. exists prefix, decoded. auto.
Qed.

(** X15. [responseFor] looks at the ID, the flags, the Question section
    and the OPT RRs of a message and at nothing else: it returns the
    same for the message stripped of its Answer section and of the other
    RRs of its Additional section. *)
Theorem responseFor_only_OPT (query : Message) (domain : Name) :
  responseFor query domain
  = responseFor
      (mkMessage (ID query) (Flags query) (Questions query) []
         (filter isOPT (Additional query)))
      domain.
Proof.
  unfold responseFor. cbn [ID Flags Questions Additional].
  rewrite (ednsLoop_filter (Additional query)). reflexivity.
Qed.

(** X16. Every ClientID that [responseFor] returns is 8 bytes long, and
    every response has an empty Answer section and an Additional section
    that is empty or holds one RR, the server's OPT RR (with the high
    bits of BADVERS in its TTL when that is the answer). *)
Theorem responseFor_shape (query : Message) (domain : Name)
    (resp : option Message) (clientID : ClientID) (payload : bytes) :
  responseFor query domain = (resp, clientID, payload) ->
  len clientID = clientIDLen /\
  forall r, resp = Some r ->
    Answer r = [] /\
    (Additional r = [] \/ Additional r = [responseOPT] \/
     Additional r = [set_RRTTL responseOPT 0x01000000]).
Proof.
  intros Hfor. split.
  - revert Hfor. unfold responseFor.
    destruct (negb (Z.land (Flags query) 0x8000 =? 0));
      [intros H; inversion H; reflexivity |].
    destruct (ednsLoop _ _ _) as [? | [resp' size]];
      [intros H; inversion H; reflexivity |].
    cbv zeta.
    destruct (negb (len (Questions query) =? 1));
      [intros H; inversion H; reflexivity |].
    destruct (Questions query) as [| question ?];
      [intros H; inversion H; reflexivity |].
    destruct (TrimSuffix (QName question) domain) as [prefix ok].
    destruct (Z.land _ 0x0400 =? 0); [intros H; inversion H; reflexivity |].
    destruct (negb (Z.land (Flags query) 0x7800 =? 0));
      [intros H; inversion H; reflexivity |].
    destruct (negb (QType question =? RRTypeTXT));
      [intros H; inversion H; reflexivity |].
    destruct (base32Decode (ToUpper (concat prefix))) as [decoded |];
      [| intros H; inversion H; reflexivity].
    assert (Hcopy : len (fst (copyClientID zeroClientID decoded)) = clientIDLen).
    { destruct (Z.lt_ge_cases (len decoded) clientIDLen) as [Hshort | Hlen].
      - unfold copyClientID. cbn [fst].
        change (len zeroClientID) with clientIDLen.
        pose proof (len_nonneg decoded). rewrite Z.min_r by lia.
        rewrite len_app. unfold len in *.
        rewrite length_firstn, length_skipn.
        change (length zeroClientID) with 8%nat. unfold clientIDLen in *. lia.
      - destruct (copyClientID_full decoded Hlen) as [-> Hcid]. exact Hcid. }
    destruct (copyClientID zeroClientID decoded) as [cid n]. cbn [fst] in Hcopy.
    destruct (n <? len cid); [intros H; inversion H; subst; assumption |].
    destruct (_ <? maxUDPPayload); intros H; inversion H; subst; assumption.
  - intros r ->. revert Hfor. unfold responseFor.
    rewrite ednsLoop_cases by reflexivity.
    responseFor_paths; intros H; try discriminate; returned; cbn; auto.
Qed.

End ResponseForTable.

(** ** The receive path, end to end *)

Section RecvQueryProperties.

Context {ext : External}.
Variable Addr : Type.

(** X9. [recvLoop] hands a packet to the packet connection only for a
    query that passed every check of [responseFor]: the packet is one of
    those framed in the decoded name after its first 8 bytes, and the
    ClientID it goes under is those 8 bytes. Whether the channel to
    [sendLoop] has room plays no part. *)
Theorem recvQuery_enqueues_validated (domain : Name) (query : Message)
    (addr : Addr) (room : bool) (p : bytes) (clientID : ClientID) :
  In (p, clientID) (snd (recvQuery domain query addr room)) ->
  exists question prefix decoded,
    Z.land (Flags query) 0x8000 = 0 /\
    Z.land (Flags query) 0x7800 = 0 /\
    ednsAccepted query /\
    maxUDPPayload <= advertisedPayloadSize (Additional query) /\
    Questions query = [question] /\
    QType question = RRTypeTXT /\
    TrimSuffix (QName question) domain = (prefix, true) /\
    base32Decode (ToUpper (concat prefix)) = Some decoded /\
    clientIDLen <= len decoded /\
    clientID = firstn (Z.to_nat clientIDLen) decoded /\
    In p (fst (recvPackets
                 (NewReader (skipn (Z.to_nat clientIDLen) decoded)))).
Proof.
  unfold recvQuery.
  destruct (responseFor query domain) as [[resp cid] payload] eqn:Hfor.
  cbn [snd]. intros Hin. apply in_map_iff in Hin.
  destruct Hin as (p' & Heq & Hin). inversion Heq; subst. clear Heq.
  assert (Hpayload : payload <> []).
  { intros ->. rewrite recvPackets_nil in Hin. contradiction. }
  destruct (responseFor_payload_inv query domain resp clientID payload
              Hfor Hpayload)
    as (question & prefix & decoded & _ & HQR & Hopcode & Hacc & Hsize & Hq
        & Htype & Htrim & Hdecode & Hlen & Hcid & Hrest).
  exists question, prefix, decoded. subst payload.
  repeat (split; [assumption |]). assumption.
Qed.

(** X17. A query that passes every check and whose name decodes to a
    ClientID followed by a bundle of packets and padding: [recvLoop]
    passes the response on to [sendLoop] when the channel has room, and
    in any case hands the packets of the bundle, in order, to the packet
    connection under that ClientID. *)
Theorem recvQuery_delivers (domain : Name) (query : Message) (addr : Addr)
    (room : bool) (question : Question) (prefix : Name)
    (clientID : ClientID) (cs : list chunk) :
  Z.land (Flags query) 0x8000 = 0 ->
  Z.land (Flags query) 0x7800 = 0 ->
  ednsAccepted query ->
  maxUDPPayload <= advertisedPayloadSize (Additional query) ->
  Questions query = [question] ->
  QType question = RRTypeTXT ->
  TrimSuffix (QName question) domain = (prefix, true) ->
  base32Decode (ToUpper (concat prefix)) = Some (clientID ++ chunksBytes cs) ->
  len clientID = clientIDLen ->
  Forall chunkFits cs ->
  recvQuery domain query addr room
  = ((if room
      then Some (mkrecord (set_Flags (skeleton query) 0x8400) addr clientID)
      else None),
     map (fun p => (p, clientID)) (packetsOf cs)).
Proof.
  intros HQR Hopcode Hacc Hsize Hq Htype Htrim Hdecode Hcid Hcs.
  unfold recvQuery.
  rewrite (responseFor_valid query domain question prefix
             (clientID ++ chunksBytes cs)) by
    (try assumption; rewrite len_app; pose proof (len_nonneg (chunksBytes cs));
     lia).
  rewrite <- Hcid.
  destruct (len_firstn_skipn clientID (chunksBytes cs)) as [-> ->].
  unfold NewReader. rewrite <- (app_nil_r (chunksBytes cs)).
  rewrite recvPackets_chunks_app by assumption.
  change (recvPackets []) with (recvPackets (NewReader [])).
  rewrite recvPackets_nil. cbn [fst]. rewrite app_nil_r. reflexivity.
Qed.

End RecvQueryProperties.

(** ** More on the send path *)

Lemma len_frame (p : bytes) : len (frame p) = 2 + len p.
Proof. unfold frame, BigEndian_uint16. rewrite len_app. reflexivity. Qed.

Lemma len_frames (ps : list bytes) :
  len (concat (map frame ps)) = encodedSize ps.
Proof.
  induction ps as [| p ps IH]; cbn [map concat encodedSize fold_right];
    [reflexivity |].
  rewrite len_app, len_frame, IH. reflexivity.
Qed.

Lemma encodedSize_nonneg (ps : list bytes) : 0 <= encodedSize ps.
Proof.
  induction ps as [| p ps IH]; cbn [encodedSize fold_right]; [lia |].
  fold (encodedSize ps). pose proof (len_nonneg p). lia.
Qed.

Lemma fitted_total (taken : list bytes) :
  forall limit, 0 <= limit -> fitted limit taken -> encodedSize taken <= limit.
Proof.
  induction taken as [| p taken IH]; intros limit Hlimit Hfit;
    cbn [encodedSize fold_right]; [assumption |].
  fold (encodedSize taken). pose proof (len_nonneg p).
  assert (Hp : 2 + len p <= limit).
  { specialize (Hfit [] p taken eq_refl). cbn [encodedSize fold_right] in Hfit.
    lia. }
  assert (Hrest : fitted (limit - (2 + len p)) taken).
  { intros before q after Heq.
    specialize (Hfit (p :: before) q after). cbn [app] in Hfit.
    rewrite Heq in Hfit. specialize (Hfit eq_refl).
    cbn [encodedSize fold_right] in Hfit. fold (encodedSize before) in Hfit.
    lia. }
  assert (Hroom : 0 <= limit - (2 + len p)) by lia.
  specialize (IH (limit - (2 + len p)) Hroom Hrest). lia.
Qed.

Section SendLoopBudget.

Context {ext : External}.
Variable Addr : Type.

(** X18. The byte budget holds from turn to turn: when the leftover and
    the packets of the outgoing queue are no longer than the MTU given
    to the reliable transport, the bundle of the response is at most 930
    bytes long and the packet left over for the next response is again
    no longer than the MTU. *)
Theorem assemble_budget (nextP : bytes) (queue : list bytes)
    (wake : option (record Addr)) (payload nextP' : bytes)
    (nextRec : option (record Addr)) (queue' : list bytes) :
  len nextP <= sessionMtu ->
  Forall (fun p => len p <= sessionMtu) queue ->
  assemble nextP queue wake = Bundle payload nextP' nextRec queue' ->
  len payload <= maxEncodedPayload /\ len nextP' <= sessionMtu.
Proof.
  intros HnextP Hqueue. unfold assemble, leftover.
  pose proof (len_nonneg nextP) as Hn.
  assert (Hmtu : sessionMtu = maxEncodedPayload - 2) by reflexivity.
  assert (Hstash : forall taken,
            queue = taken /\ nextP' = [] /\ nextRec = wake /\ queue' = [] \/
            queue = taken ++ nextP' :: queue' /\ nextRec = None /\
            True ->
            len nextP' <= sessionMtu).
  { intros taken [(_ & -> & _) | (-> & _)]; [vm_compute; discriminate |].
    apply Forall_app in Hqueue. destruct Hqueue as [_ Hrest].
    inversion Hrest; assumption. }
  destruct (len nextP >? 0); intros H; apply bundleLoop_order in H;
    destruct H as (taken & -> & Hfit & Hend).
  - split.
    + apply fitted_total in Hfit; [| lia].
      rewrite !len_app, len_frames.
      change (len (BigEndian_uint16 (uint16 (len nextP)))) with 2. lia.
    + apply (Hstash taken). tauto.
  - split.
    + apply fitted_total in Hfit; [| vm_compute; discriminate].
      cbn [app]. rewrite len_frames. assumption.
    + apply (Hstash taken). tauto.
Qed.

(** X20. With no leftover, a first packet of the queue that is no longer
    than the MTU is always taken: the bundle begins with its frame, so
    every turn that finds a packet sends at least one. *)
Theorem assemble_takes_first (p : bytes) (queue : list bytes)
    (wake : option (record Addr)) (payload nextP' : bytes)
    (nextRec : option (record Addr)) (queue' : list bytes) :
  len p <= sessionMtu ->
  assemble [] (p :: queue) wake = Bundle payload nextP' nextRec queue' ->
  exists more, payload = frame p ++ more.
Proof.
  intros Hp. unfold assemble, leftover.
  change (len (@nil byte) >? 0) with false. cbv iota. cbn [bundleLoop].
  pose proof (len_nonneg p).
  assert (Hmtu : sessionMtu = 928) by reflexivity.
  assert (Hmax : maxEncodedPayload = 930) by reflexivity.
  rewrite uint16_small, Z.eqb_refl by lia. cbn [negb].
  destruct (Z.gtb_spec (2 + len p) maxEncodedPayload) as [Hover | _]; [lia |].
  intros Hloop. apply bundleLoop_order in Hloop.
  destruct Hloop as (taken & -> & _). cbn [app].
  exists (concat (map frame taken)). unfold frame.
  rewrite uint16_small by lia. reflexivity.
Qed.

End SendLoopBudget.

Lemma BigEndian_uint16_inj (a b : Z) :
  0 <= a <= 65535 -> 0 <= b <= 65535 ->
  BigEndian_uint16 a = BigEndian_uint16 b -> a = b.
Proof.
  intros Ha Hb Heq.
  destruct (BigEndian_uint16_value a Ha) as (hi & lo & Hbytes & <-).
  destruct (BigEndian_uint16_value b Hb) as (hi' & lo' & Hbytes' & <-).
  rewrite Hbytes, Hbytes' in Heq. inversion Heq; subst. reflexivity.
Qed.

Lemma app_inj_length {A} (a b c d : list A) :
  length a = length b -> a ++ c = b ++ d -> a = b /\ c = d.
Proof.
  revert b. induction a as [| x a IH]; intros [| y b] Hlen Heq;
    cbn [length] in Hlen; try discriminate.
  - split; [reflexivity | exact Heq].
  - cbn [app] in Heq. inversion Heq; subst.
    destruct (IH b) as [-> ->]; [lia | assumption |]. split; reflexivity.
Qed.

(** X19. [sendLoop]'s framing can be read back in one way only: two
    sequences of packets, none longer than 65535 bytes, that make the
    same bundle are the same sequence. *)
Theorem frames_injective (ps qs : list bytes) :
  Forall (fun p => len p <= 65535) ps ->
  Forall (fun p => len p <= 65535) qs ->
  concat (map frame ps) = concat (map frame qs) ->
  ps = qs.
Proof.
  intros Hps. revert qs.
  induction Hps as [| p ps Hp _ IH]; intros qs Hqs Heq.
  - destruct qs as [| q qs]; [reflexivity |].
    cbn [map concat] in Heq. unfold frame, BigEndian_uint16 in Heq.
    discriminate.
  - destruct Hqs as [| q qs Hq Hqs].
    + cbn [map concat] in Heq. unfold frame, BigEndian_uint16 in Heq.
      discriminate.
    + cbn [map concat] in Heq. unfold frame in Heq.
      pose proof (len_nonneg p). pose proof (len_nonneg q).
      rewrite !uint16_small, <- !app_assoc in Heq by lia.
      apply app_inj_length in Heq; [| reflexivity].
      destruct Heq as [Hprefix Heq].
      apply BigEndian_uint16_inj in Hprefix; [| lia | lia].
      apply app_inj_length in Heq; [| unfold len in Hprefix; lia].
      destruct Heq as [-> Heq]. f_equal. apply IH; assumption.
Qed.

Lemma frames_injective_witness :
  concat (map frame [Example.packet 2; []; Example.packet 1])
  = concat (map frame [[Byte.x01; Byte.x01]; []; [Byte.x01]]) /\
  [Example.packet 2; []; Example.packet 1]
  = [[Byte.x01; Byte.x01]; []; [Byte.x01]].
Proof.
  split; [reflexivity |].
  apply (frames_injective [Example.packet 2; []; Example.packet 1]
           [[Byte.x01; Byte.x01]; []; [Byte.x01]]).
  - repeat constructor; vm_compute; discriminate.
  - repeat constructor; vm_compute; discriminate.
  - reflexivity.
Defined.

Section SendLoopOrder.

Context {ext : External}.
Variable Addr : Type.

Lemma bundleLoop_nextRec (queue : list bytes) :
  forall limit payload (wake : option (record Addr))
         payload' nextP nextRec queue',
    bundleLoop limit payload queue wake
    = Bundle payload' nextP nextRec queue' ->
    nextRec = None \/ nextRec = wake.
Proof.
  intros limit payload wake payload' nextP nextRec queue' H.
  apply bundleLoop_order in H.
  destruct H as (_ & _ & _ & [(_ & _ & -> & _) | (_ & -> & _)]); auto.
Qed.

Lemma sendRecord_nextRec (nextP : bytes) (rec : record Addr)
    (queue : list bytes) (wake : option (record Addr)) resp datagram
    nextP' nextRec queue' :
  sendRecord nextP rec queue wake = Sent resp datagram nextP' nextRec queue' ->
  nextRec = None \/ nextRec = wake.
Proof.
  unfold sendRecord.
  destruct ((Rcode (Resp rec) =? RcodeNoError)
            && (len (Questions (Resp rec)) =? 1));
    [| intros H; inversion H; subst; auto].
  destruct (Questions (Resp rec)) as [| question questions];
    [intros H; inversion H; subst; auto |].
  unfold assemble. destruct (leftover nextP) as [limit payload].
  destruct (bundleLoop limit payload queue wake)
    as [payload' p r q | n] eqn:Hloop; [| discriminate].
  intros H; inversion H; subst.
  eapply bundleLoop_nextRec. eassumption.
Qed.

(** X21. [sendLoop] answers the records in the order in which they come:
    with a serializer that does not fail, the k-th datagram it writes
    goes to the address of the k-th record waiting (the one held in
    [nextRec] first, then those of the channel), whatever the outgoing
    queues hold and whenever the timer fires. *)
Theorem sendLoop_in_order (turns : list turn)
    (nextRec : option (record Addr)) (nextP : bytes)
    (ch : list (record Addr)) :
  (forall m, WireFormat m <> None) ->
  map snd (fst (sendLoop turns nextRec nextP ch))
  = map RAddr
      (firstn (length (fst (sendLoop turns nextRec nextP ch)))
         (pending nextRec ch)).
Proof.
  intros Hwire. revert nextRec nextP ch.
  induction turns as [| t turns IH]; intros nextRec nextP ch;
    cbn [sendLoop]; [reflexivity |].
  assert (Hrecv : match nextRec with
                  | Some rec => Some (rec, ch)
                  | None => match ch with
                            | rec :: ch' => Some (rec, ch')
                            | [] => None
                            end
                  end
                  = match pending nextRec ch with
                    | rec :: ch' => Some (rec, ch')
                    | [] => None
                    end).
  { destruct nextRec; reflexivity. }
  rewrite Hrecv. clear Hrecv.
  destruct (pending nextRec ch) as [| rec ch']; [reflexivity |].
  destruct (sendRecord nextP rec (outgoing t)
              (if arrival t then hd_error ch' else None))
    as [resp datagram nextP' nextRec' queue' | n] eqn:Hturn; [| reflexivity].
  assert (Hpending :
            pending nextRec'
              match nextRec' with Some _ => tl ch' | None => ch' end = ch').
  { destruct (sendRecord_nextRec _ _ _ _ _ _ _ _ _ Hturn) as [-> | ->];
      [reflexivity |].
    destruct (arrival t); [| reflexivity].
    destruct ch'; reflexivity. }
  apply sendRecord_sent in Hturn. destruct Hturn as (Hemit & _).
  destruct datagram as [buf |].
  2: { exfalso. unfold emit in Hemit.
       destruct (WireFormat resp) eqn:Hw; [discriminate |].
       apply (Hwire resp). assumption. }
  specialize (IH nextRec' nextP'
                match nextRec' with Some _ => tl ch' | None => ch' end).
  rewrite Hpending in IH.
  destruct (written t); try reflexivity;
    destruct (sendLoop turns nextRec' nextP' _) as [rest e];
    cbn [fst snd map length firstn] in *; rewrite IH; reflexivity.
Qed.

(** X22. A BADVERS response has RCODE bits 0, so [sendLoop] treats it as
    a response without error: for a query with one question whose OPT RR
    has an EDNS version other than 0, the record goes out under the
    all-zero ClientID, and the turn of [sendLoop] that answers it puts a
    bundle from that client's queue in an Answer RR that mirrors the
    question, whatever its name and type. *)
Theorem sendRecord_BADVERS_answer (domain : Name) (query : Message)
    (addr : Addr) (o : RR) (more : list RR) (question : Question)
    (nextP : bytes) (queue : list bytes) (wake : option (record Addr))
    resp datagram nextP' nextRec queue' :
  Z.land (Flags query) 0x8000 = 0 ->
  filter isOPT (Additional query) = o :: more ->
  ednsVersion o <> 0 ->
  Questions query = [question] ->
  sendRecord nextP
    (mkrecord (mkMessage (ID query) 0x8000 (Questions query) []
                 [set_RRTTL responseOPT 0x01000000]) addr zeroClientID)
    queue wake
  = Sent resp datagram nextP' nextRec queue' ->
  recvQuery domain query addr true
  = (Some (mkrecord (mkMessage (ID query) 0x8000 (Questions query) []
                       [set_RRTTL responseOPT 0x01000000]) addr zeroClientID),
     []) /\
  exists payload,
    assemble nextP queue wake = Bundle payload nextP' nextRec queue' /\
    Answer resp
    = [mkRR (QName question) (QType question) (QClass question) responseTTL
            (EncodeRDataTXT payload)].
Proof.
  intros HQR Hopt Hv Hq Hturn. split.
  - unfold recvQuery.
    destruct (responseFor_rejected query domain o more HQR Hopt) as [Hbad _].
    rewrite (Hbad Hv), recvPackets_nil. reflexivity.
  - eapply sendRecord_bundle; [| | exact Hturn]; [reflexivity | exact Hq].
Qed.

End SendLoopOrder.

(** ** Key generation *)

Lemma createdFiles_app (t u : list event) :
  createdFiles (t ++ u) = createdFiles t ++ createdFiles u.
Proof. apply flat_map_app. Qed.

Lemma removedFiles_app (t u : list event) :
  removedFiles (t ++ u) = removedFiles t ++ removedFiles u.
Proof. apply flat_map_app. Qed.

Lemma failedCalls_app (t u : list event) :
  failedCalls (t ++ u) = failedCalls t ++ failedCalls u.
Proof. apply flat_map_app. Qed.

Lemma stdoutLines_app (t u : list event) :
  stdoutLines (t ++ u) = stdoutLines t ++ stdoutLines u.
Proof. apply flat_map_app. Qed.

(** The deferred function, entered with an error: it tries to remove
    each file of [toDelete], in order, and keeps the error. *)
Lemma deleteFiles_error (toDelete : list String.string) (e : fault) :
  forall w, exists w' added,
    deleteFiles toDelete (Some e) w = (Some e, w') /\
    trace w' = trace w ++ added /\
    createdFiles added = [] /\
    removedFiles added = toDelete /\
    stdoutLines added = [] /\
    Forall (fun failed => exists filename, fst failed = Remove filename)
           (failedCalls added).
Proof.
  induction toDelete as [| filename rest IH]; intros w.
  - exists w, []. cbn. rewrite app_nil_r. repeat split; constructor.
  - cbn [deleteFiles]. unfold bind, print, call. cbn [script trace].
    destruct (script w) as [| [closeErr |] sc]; cbv beta iota;
      cbn [script trace].
    + destruct (IH (mkworld [] ((trace w ++ [Print (StderrDeleting filename)])
                                  ++ [Call (Remove filename) None])))
        as (w' & added & -> & Htrace & Hcreated & Hremoved & Hout & Hfailed).
      exists w', ([Print (StderrDeleting filename);
                   Call (Remove filename) None] ++ added).
      split; [reflexivity |]. cbn [trace] in Htrace.
      rewrite Htrace, <- !app_assoc. split; [reflexivity |].
      rewrite createdFiles_app, removedFiles_app, stdoutLines_app,
        failedCalls_app, Hcreated, Hremoved, Hout.
      repeat split; assumption.
    + destruct (IH (mkworld sc
                      (((trace w ++ [Print (StderrDeleting filename)])
                        ++ [Call (Remove filename) (Some closeErr)])
                       ++ [Print (StderrCannotRemove filename closeErr)])))
        as (w' & added & -> & Htrace & Hcreated & Hremoved & Hout & Hfailed).
      exists w', ([Print (StderrDeleting filename);
                   Call (Remove filename) (Some closeErr);
                   Print (StderrCannotRemove filename closeErr)] ++ added).
      split; [reflexivity |]. cbn [trace] in Htrace.
      rewrite Htrace, <- !app_assoc. split; [reflexivity |].
      rewrite createdFiles_app, removedFiles_app, stdoutLines_app,
        failedCalls_app, Hcreated, Hremoved, Hout.
      repeat split; try reflexivity.
      cbn. constructor; [exists filename; reflexivity | assumption].
    + destruct (IH (mkworld sc ((trace w ++ [Print (StderrDeleting filename)])
                                  ++ [Call (Remove filename) None])))
        as (w' & added & -> & Htrace & Hcreated & Hremoved & Hout & Hfailed).
      exists w', ([Print (StderrDeleting filename);
                   Call (Remove filename) None] ++ added).
      split; [reflexivity |]. cbn [trace] in Htrace.
      rewrite Htrace, <- !app_assoc. split; [reflexivity |].
      rewrite createdFiles_app, removedFiles_app, stdoutLines_app,
        failedCalls_app, Hcreated, Hremoved, Hout.
      repeat split; assumption.
Qed.

(** Answers the next call of a run from its script. *)
Ltac next_call H :=
  match type of H with
  | context [match ?sc with [] => _ | _ :: _ => _ end] =>
      is_var sc; destruct sc as [| [? |] ?]; cbn in H
  end.

Section GenerateKeypairProperties.

Variable privkey pubkey : bytes.

(** The body of [generateKeypair], by its two ways out. *)
Lemma generateKeypairBody_returns (privkeyFilename pubkeyFilename : String.string)
    (sc : list (option fault)) (err : option fault)
    (toDelete : list String.string) (w' : world) :
  generateKeypairBody privkey pubkey privkeyFilename pubkeyFilename
    (mkworld sc [])
  = ((err, toDelete), w') ->
  removedFiles (trace w') = [] /\
  match err with
  | None =>
      toDelete = [] /\
      failedCalls (trace w') = [] /\
      createdFiles (trace w')
      = filter (fun f => negb (isEmpty f)) [privkeyFilename; pubkeyFilename] /\
      stdoutLines (trace w')
      = keyLines privkey pubkey privkeyFilename pubkeyFilename
  | Some e =>
      createdFiles (trace w') = toDelete /\
      stdoutLines (trace w') = [] /\
      exists c more,
        failedCalls (trace w') = (c, e) :: more /\
        forall filename, c <> Remove filename
  end.
Proof.
  unfold generateKeypairBody, saveKey, keyLines, bind, ret, call, print.
  cbn [script trace app].
  destruct (isEmpty privkeyFilename) eqn:Hpriv;
    destruct (isEmpty pubkeyFilename) eqn:Hpub;
    cbn [negb]; intros H; cbn in H;
    repeat next_call H;
    inversion H; subst; clear H; cbn; rewrite ?Hpriv, ?Hpub; cbn;
    repeat split; try reflexivity;
    try (eexists _, _; split; [reflexivity | discriminate]).
Qed.

(** X23. When [generateKeypair] returns an error, it has tried to remove
    every file it created, in the order of their creation, it has
    printed nothing on standard output, and the error is that of the
    first call that failed, never that of an [os.Remove]. *)
Theorem generateKeypair_cleans_up (privkeyFilename pubkeyFilename : String.string)
    (sc : list (option fault)) (e : fault) (w' : world) :
  generateKeypair privkey pubkey privkeyFilename pubkeyFilename (mkworld sc [])
  = (Some e, w') ->
  removedFiles (trace w') = createdFiles (trace w') /\
  stdoutLines (trace w') = [] /\
  exists c more,
    failedCalls (trace w') = (c, e) :: more /\
    forall filename, c <> Remove filename.
Proof.
  unfold generateKeypair, bind.
  destruct (generateKeypairBody privkey pubkey privkeyFilename pubkeyFilename
              (mkworld sc [])) as [[err toDelete] w1] eqn:Hbody.
  apply generateKeypairBody_returns in Hbody.
  destruct Hbody as [Hremoved Hbody]. destruct err as [e1 |].
  - destruct Hbody as (Hcreated & Hout & c & more & Hfailed & Hc).
    destruct (deleteFiles_error toDelete e1 w1)
      as (w2 & added & -> & Htrace & Hcreated' & Hremoved' & Hout' & _).
    intros H. inversion H; subst. clear H.
    rewrite Htrace, removedFiles_app, createdFiles_app, stdoutLines_app,
      failedCalls_app, Hremoved, Hcreated', Hremoved', Hout, Hout', Hfailed.
    rewrite app_nil_r. repeat split.
    exists c, (more ++ failedCalls added). split; [reflexivity | assumption].
  - destruct Hbody as (-> & _). cbn. discriminate.
Qed.

(** X24. [generateKeypair] returns nil exactly when none of its calls
    failed. It has then removed nothing, the files created are the files
    named, and standard output has two lines: for each key, that it was
    written to its file, or the key itself when no file was named for
    it. *)
Theorem generateKeypair_nil_iff (privkeyFilename pubkeyFilename : String.string)
    (sc : list (option fault)) (err : option fault) (w' : world) :
  generateKeypair privkey pubkey privkeyFilename pubkeyFilename (mkworld sc [])
  = (err, w') ->
  (err = None <-> failedCalls (trace w') = []) /\
  (err = None ->
   removedFiles (trace w') = [] /\
   createdFiles (trace w')
   = filter (fun f => negb (isEmpty f)) [privkeyFilename; pubkeyFilename] /\
   stdoutLines (trace w')
   = keyLines privkey pubkey privkeyFilename pubkeyFilename).
Proof.
  unfold generateKeypair, bind.
  destruct (generateKeypairBody privkey pubkey privkeyFilename pubkeyFilename
              (mkworld sc [])) as [[err1 toDelete] w1] eqn:Hbody.
  apply generateKeypairBody_returns in Hbody.
  destruct Hbody as [Hremoved Hbody]. destruct err1 as [e1 |].
  - destruct Hbody as (_ & _ & c & more & Hfailed & _).
    destruct (deleteFiles_error toDelete e1 w1)
      as (w2 & added & -> & Htrace & _).
    intros H. inversion H; subst. clear H.
    split; [| discriminate].
    rewrite Htrace, failedCalls_app, Hfailed. split; discriminate.
  - destruct Hbody as (-> & Hfailed & Hcreated & Hout). cbn.
    intros H. inversion H; subst. clear H. tauto.
Qed.

End GenerateKeypairProperties.

(** *** Key generation on example scripts *)

Lemma generateKeypair_cleans_up_witness :
  exists w',
    generateKeypair [Byte.x01] [Byte.x02] KeyExample.privFile
      KeyExample.pubFile (mkworld KeyExample.pubWriteFails [])
    = (Some 5%nat, w') /\
    removedFiles (trace w') = [KeyExample.privFile; KeyExample.pubFile] /\
    createdFiles (trace w') = [KeyExample.privFile; KeyExample.pubFile] /\
    stdoutLines (trace w') = [].
Proof.
  eexists. split; [vm_compute; reflexivity |].
  match goal with
  | |- removedFiles (trace ?w) = _ /\ _ =>
      destruct (generateKeypair_cleans_up [Byte.x01] [Byte.x02]
                  KeyExample.privFile KeyExample.pubFile
                  KeyExample.pubWriteFails 5%nat w)
        as (Hremoved & Hout & _); [vm_compute; reflexivity |]
  end.
  split; [rewrite Hremoved; vm_compute; reflexivity |].
  split; [vm_compute; reflexivity | exact Hout].
Defined.

Lemma generateKeypair_nil_iff_witness :
  exists w',
    generateKeypair [Byte.x01] [Byte.x02] KeyExample.privFile
      String.EmptyString (mkworld [] [])
    = (None, w') /\
    failedCalls (trace w') = [] /\
    createdFiles (trace w') = [KeyExample.privFile] /\
    stdoutLines (trace w')
    = [StdoutWritten Privkey KeyExample.privFile; StdoutKey Pubkey [Byte.x02]].
Proof.
  eexists. split; [vm_compute; reflexivity |].
  match goal with
  | |- failedCalls (trace ?w) = _ /\ _ =>
      destruct (generateKeypair_nil_iff [Byte.x01] [Byte.x02]
                  KeyExample.privFile String.EmptyString [] None w)
        as (Hiff & Hsuccess); [vm_compute; reflexivity |]
  end.
  destruct (Hsuccess eq_refl) as (_ & Hcreated & Hout).
  split; [apply Hiff; reflexivity |].
  split; [rewrite Hcreated | rewrite Hout]; reflexivity.
Defined.

(** *** The state machine on more example queries *)

Lemma responseFor_valid_example :
  responseFor (ext := Model.external) Example2.valid Example.domain
  = (Some (set_Flags (skeleton Example2.valid) 0x8400),
     Example.clientID, Example.bundle).
Proof. vm_compute. reflexivity. Qed.

Lemma ednsAccepted_one (m : Message) (o : RR) :
  filter isOPT (Additional m) = [o] -> ednsVersion o = 0 -> ednsAccepted m.
Proof. intros H Hv. right. exists o. split; assumption. Qed.

Lemma responseFor_flags_witness :
  In (Flags (set_Flags (skeleton Example2.valid) 0x8400))
     [0x8000; 0x8001; 0x8003; 0x8400; 0x8401; 0x8403; 0x8404].
Proof.
  exact (responseFor_flags (ext := Model.external) _ _ _ _ _
           responseFor_valid_example).
Defined.

Lemma responseFor_success_witness :
  responseFor (ext := Model.external) Example2.valid Example.domain
  = (Some (set_Flags (skeleton Example2.valid) 0x8400),
     firstn (Z.to_nat clientIDLen) (Example.clientID ++ Example.bundle),
     skipn (Z.to_nat clientIDLen) (Example.clientID ++ Example.bundle)).
Proof.
  apply (responseFor_success (ext := Model.external) Example2.valid
           Example.domain Example2.question Example.tunnelPrefix
           (Example.clientID ++ Example.bundle)).
  - reflexivity.
  - reflexivity.
  - apply (ednsAccepted_one _ (Example.opt 4096 0)); reflexivity.
  - vm_compute. discriminate.
  - reflexivity.
  - reflexivity.
  - vm_compute. reflexivity.
  - vm_compute. reflexivity.
  - vm_compute. discriminate.
Defined.

Lemma recvQuery_enqueues_validated_witness :
  In ([Byte.x68; Byte.x69], Example.clientID)
     (snd (recvQuery (ext := Model.external) Example.domain Example2.valid
             tt true)) /\
  exists question prefix decoded,
    Questions Example2.valid = [question] /\
    TrimSuffix (External := Model.external) (QName question) Example.domain
    = (prefix, true) /\
    base32Decode (External := Model.external)
      (ToUpper (External := Model.external) (concat prefix))
    = Some decoded /\
    Example.clientID = firstn (Z.to_nat clientIDLen) decoded.
Proof.
  assert (Hin : In ([Byte.x68; Byte.x69], Example.clientID)
                   (snd (recvQuery (ext := Model.external) Example.domain
                           Example2.valid tt true)))
    by (vm_compute; left; reflexivity).
  split; [exact Hin |].
  destruct (recvQuery_enqueues_validated (ext := Model.external) unit
              _ _ _ _ _ _ Hin)
    as (question & prefix & decoded & _ & _ & _ & _ & Hq & _ & Htrim
        & Hdecode & _ & Hcid & _).
  exists question, prefix, decoded. auto.
Defined.

Lemma responseFor_AA_iff_witness :
  AA (set_Flags (skeleton Example2.valid) 0x8400) = true <->
  ednsAccepted Example2.valid /\
  exists question prefix,
    Questions Example2.valid = [question] /\
    TrimSuffix (External := Model.external) (QName question) Example.domain
    = (prefix, true).
Proof.
  exact (responseFor_AA_iff (ext := Model.external) _ _ _ _ _
           responseFor_valid_example).
Defined.

Lemma responseFor_BADVERS_witness :
  responseFor (ext := Model.external) Example2.version1 Example.domain
  = (Some Example2.badvers, zeroClientID, []).
Proof.
  apply (responseFor_BADVERS (ext := Model.external) Example2.version1
           Example.domain (Example.opt 4096 1) []).
  - reflexivity.
  - reflexivity.
  - vm_compute. discriminate.
Defined.

Lemma responseFor_NOTIMPL_witness :
  responseFor (ext := Model.external) Example2.inverse Example.domain
  = (Some (set_Flags (skeleton Example2.inverse) 0x8404), zeroClientID, []).
Proof.
  apply (responseFor_NOTIMPL (ext := Model.external) Example2.inverse
           Example.domain Example2.question Example.tunnelPrefix).
  - reflexivity.
  - apply (ednsAccepted_one _ (Example.opt 4096 0)); reflexivity.
  - reflexivity.
  - vm_compute. reflexivity.
  - vm_compute. discriminate.
Defined.

Lemma responseFor_question_count_FORMERR_witness :
  responseFor (ext := Model.external) Example2.noQuestion Example.domain
  = (Some (set_Flags (skeleton Example2.noQuestion) 0x8001), zeroClientID, []).
Proof.
  apply (responseFor_question_count_FORMERR (ext := Model.external)
           Example2.noQuestion Example.domain).
  - reflexivity.
  - apply (ednsAccepted_one _ (Example.opt 4096 0)); reflexivity.
  - vm_compute. discriminate.
Defined.

Lemma responseFor_NXDOMAIN_under_domain_witness :
  exists clientID,
    responseFor (ext := Model.external) Example2.typeA Example.domain
    = (Some (set_Flags (skeleton Example2.typeA) 0x8403), clientID, []) /\
    Rcode (set_Flags (skeleton Example2.typeA) 0x8403) = RcodeNameError /\
    AA (set_Flags (skeleton Example2.typeA) 0x8403) = true.
Proof.
  apply (responseFor_NXDOMAIN_under_domain (ext := Model.external)
           Example2.typeA Example.domain
           (mkQuestion Example.tunnelName 1 1) Example.tunnelPrefix).
  - reflexivity.
  - reflexivity.
  - apply (ednsAccepted_one _ (Example.opt 4096 0)); reflexivity.
  - reflexivity.
  - vm_compute. reflexivity.
  - intros (prefix & payload & _ & Htype & _). discriminate Htype.
Defined.

Lemma responseFor_shape_witness :
  len Example.clientID = clientIDLen /\
  Answer (set_Flags (skeleton Example2.valid) 0x8400) = [] /\
  (Additional (set_Flags (skeleton Example2.valid) 0x8400) = [] \/
   Additional (set_Flags (skeleton Example2.valid) 0x8400) = [responseOPT] \/
   Additional (set_Flags (skeleton Example2.valid) 0x8400)
   = [set_RRTTL responseOPT 0x01000000]).
Proof.
  destruct (responseFor_shape (ext := Model.external) _ _ _ _ _
              responseFor_valid_example) as [Hlen Hshape].
  split; [exact Hlen |]. apply Hshape. reflexivity.
Defined.

Lemma recvQuery_delivers_witness :
  recvQuery (ext := Model.external) Example.domain Example2.valid tt false
  = (None,
     map (fun p => (p, Example.clientID)) (packetsOf Example2.pieces)).
Proof.
  apply (recvQuery_delivers (ext := Model.external) unit Example.domain
           Example2.valid tt false Example2.question Example.tunnelPrefix
           Example.clientID Example2.pieces).
  - reflexivity.
  - reflexivity.
  - apply (ednsAccepted_one _ (Example.opt 4096 0)); reflexivity.
  - vm_compute. discriminate.
  - reflexivity.
  - reflexivity.
  - vm_compute. reflexivity.
  - vm_compute. reflexivity.
  - reflexivity.
  - repeat constructor; vm_compute; discriminate.
Defined.

(** *** The send path on more examples *)

Lemma assemble_budget_witness :
  assemble (Addr := unit) (Example.packet 100)
    [Example.packet 500; Example.packet 600] None
  = Bundle (frame (Example.packet 100) ++ frame (Example.packet 500))
      (Example.packet 600) None [] /\
  len (frame (Example.packet 100) ++ frame (Example.packet 500))
  <= maxEncodedPayload /\
  len (Example.packet 600) <= sessionMtu.
Proof.
  assert (H : assemble (Addr := unit) (Example.packet 100)
                [Example.packet 500; Example.packet 600] None
              = Bundle (frame (Example.packet 100) ++ frame (Example.packet 500))
                  (Example.packet 600) None [])
    by (vm_compute; reflexivity).
  split; [exact H |].
  apply (assemble_budget unit _ _ _ _ _ _ _) with (3 := H).
  - vm_compute. discriminate.
  - repeat constructor; vm_compute; discriminate.
Defined.

Lemma assemble_takes_first_witness :
  assemble (Addr := unit) [] [Example.packet 928; [Byte.x07]] None
  = Bundle (frame (Example.packet 928)) [Byte.x07] None [] /\
  exists more, frame (Example.packet 928) = frame (Example.packet 928) ++ more.
Proof.
  assert (H : assemble (Addr := unit) [] [Example.packet 928; [Byte.x07]] None
              = Bundle (frame (Example.packet 928)) [Byte.x07] None [])
    by (vm_compute; reflexivity).
  split; [exact H |].
  apply (assemble_takes_first unit _ _ _ _ _ _ _) with (2 := H).
  vm_compute. discriminate.
Defined.

Lemma sendLoop_in_order_witness :
  map snd
    (fst (sendLoop (ext := Model.external)
            [mkturn [Example.packet 100] true WriteOk;
             mkturn [] false WriteTemporary]
            None [] [Example2.first; Example2.second]))
  = [1%nat; 2%nat].
Proof.
  rewrite (sendLoop_in_order (ext := Model.external) nat).
  - vm_compute. reflexivity.
  - intros m. discriminate.
Defined.

Lemma sendRecord_BADVERS_answer_witness :
  recvQuery (ext := Model.external) Example.domain Example2.version1 tt true
  = (Some (mkrecord Example2.badvers tt zeroClientID), []) /\
  exists resp datagram, exists payload : bytes,
    sendRecord (ext := Model.external) []
      (mkrecord Example2.badvers tt zeroClientID) [Example.packet 100] None
    = Sent resp datagram [] None [] /\
    Answer resp
    = [mkRR Example.tunnelName RRTypeTXT 1 responseTTL
            (Model.EncodeRDataTXT payload)].
Proof.
  destruct (sendRecord (ext := Model.external) []
              (mkrecord Example2.badvers tt zeroClientID)
              [Example.packet 100] None)
    as [resp datagram nextP' nextRec queue' | n] eqn:Hturn;
    [| vm_compute in Hturn; discriminate].
  assert (Hstate : nextP' = [] /\ nextRec = None /\ queue' = []).
  { vm_compute in Hturn. inversion Hturn. auto. }
  destruct Hstate as (-> & -> & ->).
  destruct (sendRecord_BADVERS_answer (ext := Model.external) unit
              Example.domain Example2.version1 tt (Example.opt 4096 1) []
              Example2.question [] [Example.packet 100] None
              resp datagram [] None [])
    as (Hrecv & payload & _ & Hanswer).
  - reflexivity.
  - reflexivity.
  - vm_compute. discriminate.
  - reflexivity.
  - exact Hturn.
  - split; [exact Hrecv |].
    exists resp, datagram, payload. split; [reflexivity | exact Hanswer].
Defined.
